(** * searching-jobs: the job search pipeline of [simple_job_search.py]
      and the [/search] endpoint of [simple_web_app.py]

    The Python code is embedded shallowly.

    - Text is [string] (bytes).  The text primitives of [Text] are Python's
      [str] methods on ASCII text: case folding touches the letters A-Z only
      and white space is the ASCII white space of [str.isspace].
    - A job dictionary is the record [JobRecord]; the only key that some
      dictionaries lack is ['description'], hence its [option] type.
    - The [seen] set of [remove_duplicates] is a [gset], the dictionary that
      [csv.DictWriter] receives and the JSON object of a request are [gmap]s.
    - The network and BeautifulSoup are inputs: an extractor is a function of
      the outcome of its fetch ([Fetch]), a card parser a function of what
      the card answers to its selectors ([Card]).  On such a card no statement
      of a parser's [try] block raises, so the [except] branches of the
      parsers are not modelled.
    - [print] and [time.sleep] have no part in what the functions return and
      are left out.
    - A function that may raise returns a [Result]. *)

From Stdlib Require Import Ascii String DecimalString.
From stdpp Require Import base decidable option list gmap strings.

(** ** Text primitives (Python [str] methods) *)

Module Text.

Definition is_upper (c : ascii) : bool :=
  let n := nat_of_ascii c in (65 <=? n)%nat && (n <=? 90)%nat.

Definition lower_char (c : ascii) : ascii :=
  if is_upper c then ascii_of_nat (nat_of_ascii c + 32) else c.

(** [s.lower()] *)
Fixpoint lower (s : string) : string :=
  match s with
  | EmptyString => EmptyString
  | String c s' => String (lower_char c) (lower s')
  end.

(** [c.isspace()] for an ASCII character: tab, line feed, vertical tab,
    form feed, carriage return, the four separators 28-31 and the blank. *)
Definition is_space (c : ascii) : bool :=
  let n := nat_of_ascii c in
  ((9 <=? n)%nat && (n <=? 13)%nat) || ((28 <=? n)%nat && (n <=? 32)%nat).

Fixpoint lstrip (s : string) : string :=
  match s with
  | EmptyString => EmptyString
  | String c s' => if is_space c then lstrip s' else s
  end.

Fixpoint rstrip (s : string) : string :=
  match s with
  | EmptyString => EmptyString
  | String c s' =>
      match rstrip s' with
      | EmptyString => if is_space c then EmptyString else String c EmptyString
      | r => String c r
      end
  end.

(** [s.strip()] *)
Definition strip (s : string) : string := rstrip (lstrip s).

(** [s.startswith(p)] *)
Definition startswith (s p : string) : bool := String.prefix p s.

(** [pat in s] *)
Fixpoint contains (pat s : string) : bool :=
  String.prefix pat s ||
  match s with
  | EmptyString => false
  | String _ s' => contains pat s'
  end.

(** [s.replace(old, new)] for a one-character [old], the only use the
    program makes of it. *)
Fixpoint replace (old : ascii) (new : string) (s : string) : string :=
  match s with
  | EmptyString => EmptyString
  | String c s' =>
      (if Ascii.eqb c old then new else String c EmptyString) +:+ replace old new s'
  end.

(** [s[:n]] *)
Fixpoint take (n : nat) (s : string) : string :=
  match n, s with
  | S n', String c s' => String c (take n' s')
  | _, _ => EmptyString
  end.

(** Truth value of a string: [bool(s)]. *)
Definition truthy (s : string) : bool :=
  match s with EmptyString => false | _ => true end.

(** [str(n)] for a non-negative integer, as the f-strings print it. *)
Definition str_of_N (n : N) : string :=
  NilEmpty.string_of_uint (N.to_uint n).

(** [sep.join(parts)] with the empty separator *)
Definition join (parts : list string) : string :=
  foldr String.append EmptyString parts.

End Text.

(** ** The job dictionary *)

Record JobRecord := mkJob {
  title : string;
  company : string;
  location : string;
  experience : string;
  salary : string;
  description : option string;   (* [None]: the dictionary has no such key *)
  apply_url : string;
  source : string
}.

(** ** [SimpleJobSearch.remove_duplicates] *)

(** [(job['title'].lower().strip(), job['company'].lower().strip())] *)
Definition dedup_key (job : JobRecord) : string * string :=
  (Text.strip (Text.lower (title job)), Text.strip (Text.lower (company job))).

(** One iteration of the loop over [jobs]; the state is [(seen, unique_jobs)]. *)
Definition dedup_step (st : gset (string * string) * list JobRecord)
    (job : JobRecord) : gset (string * string) * list JobRecord :=
  let key := dedup_key job in
  if decide (key ∉ st.1) then ({[ key ]} ∪ st.1, st.2 ++ [job]) else st.

Definition remove_duplicates (jobs : list JobRecord) : list JobRecord :=
  (fold_left dedup_step jobs (∅, [])).2.

(** ** Job URLs *)

Definition job_patterns : list string :=
  [ "/job/"; "/jobs/"; "/career/"; "/careers/";
    "/vacancy/"; "/opening/"; "/position/";
    "job-detail"; "job_detail"; "jobdetail" ].

(** [SimpleJobSearch.is_valid_job_url] *)
Definition is_valid_job_url (url : string) : bool :=
  if negb (Text.truthy url) then false
  else existsb (fun pattern => Text.contains pattern (Text.lower url)) job_patterns.

(** [SimpleJobSearch.get_fallback_job_url] *)
Definition get_fallback_job_url (job_title company source : string) : string :=
  if decide (source = "Apna.co") then
    "https://apna.co/jobs?search=" +:+ Text.replace " " "%20" job_title
      +:+ "&company=" +:+ Text.replace " " "%20" company
  else if decide (source = "TimesJobs") then
    "https://www.timesjobs.com/candidate/job-search.html?searchType=personalizedSearch&from=submit&txtKeywords="
      +:+ Text.replace " " "%20" job_title +:+ "&txtLocation=India"
  else
    "https://www.google.com/search?q=" +:+ Text.replace " " "+" job_title
      +:+ "+jobs+at+" +:+ Text.replace " " "+" company.

(** ** The parsed document, as the card parsers see it

    A card is what BeautifulSoup answers to the parsers' queries: the first
    element matching a selector ([select_one]) and the card's [<a>] elements
    in document order ([find], [find_all]).  An element is its text nodes and
    its [href] attribute. *)

Record Element := mkElement {
  strings : list string;
  href : option string
}.

Record Card := mkCard {
  select_one : string -> option Element;
  anchors : list Element
}.

(** [elem.get_text(strip=True)]: every text node is stripped, the empty ones
    are skipped and the rest is joined. *)
Definition get_text_strip (e : Element) : string :=
  Text.join (List.filter Text.truthy (map Text.strip (strings e))).

(** The [for selector in selectors: ... if elem: ...; break] idiom: the
    element of the first selector that matches. *)
Fixpoint first_match (card : Card) (selectors : list string) : option Element :=
  match selectors with
  | [] => None
  | selector :: rest =>
      match select_one card selector with
      | Some e => Some e
      | None => first_match card rest
      end
  end.

(** [card.find_all('a', href=True)] *)
Definition find_all_links (card : Card) : list Element :=
  List.filter (fun a => bool_decide (is_Some (href a))) (anchors card).

(** Truth value of [elem.get('href')] *)
Definition href_truthy (h : option string) : bool :=
  match h with Some s => Text.truthy s | None => false end.

(** Field updates of a job dictionary: [job_data[k] = v] *)
Definition set_title (v : string) (j : JobRecord) : JobRecord :=
  mkJob v (company j) (location j) (experience j) (salary j) (description j) (apply_url j) (source j).
Definition set_company (v : string) (j : JobRecord) : JobRecord :=
  mkJob (title j) v (location j) (experience j) (salary j) (description j) (apply_url j) (source j).
Definition set_location (v : string) (j : JobRecord) : JobRecord :=
  mkJob (title j) (company j) v (experience j) (salary j) (description j) (apply_url j) (source j).
Definition set_experience (v : string) (j : JobRecord) : JobRecord :=
  mkJob (title j) (company j) (location j) v (salary j) (description j) (apply_url j) (source j).
Definition set_salary (v : string) (j : JobRecord) : JobRecord :=
  mkJob (title j) (company j) (location j) (experience j) v (description j) (apply_url j) (source j).
Definition set_description (v : string) (j : JobRecord) : JobRecord :=
  mkJob (title j) (company j) (location j) (experience j) (salary j) (Some v) (apply_url j) (source j).
Definition set_apply_url (v : string) (j : JobRecord) : JobRecord :=
  mkJob (title j) (company j) (location j) (experience j) (salary j) (description j) v (source j).

(** The dictionary every card parser but LinkedIn's starts from. *)
Definition initial_job_data (src : string) : JobRecord :=
  mkJob "" "" "" "" "Not disclosed" (Some "") "#" src.

(** [for selector in selectors: elem = card.select_one(selector);
     if elem: job_data[k] = elem.get_text(strip=True); break] *)
Definition extract_field (set : string -> JobRecord -> JobRecord)
    (card : Card) (selectors : list string) (job_data : JobRecord) : JobRecord :=
  match first_match card selectors with
  | Some e => set (get_text_strip e) job_data
  | None => job_data
  end.

(** The same for the description: [get_text(strip=True)[:200] + "..."] *)
Definition extract_description (card : Card) (selectors : list string)
    (job_data : JobRecord) : JobRecord :=
  match first_match card selectors with
  | Some e => set_description (Text.take 200 (get_text_strip e) +:+ "...") job_data
  | None => job_data
  end.

(** The double quote character, for the selectors that contain one. *)
Definition dquote : string := String (ascii_of_nat 34) EmptyString.

(** [if not job_data[k]: job_data[k] = v] *)
Definition default_field (get : JobRecord -> string)
    (set : string -> JobRecord -> JobRecord) (v : string) (job_data : JobRecord) : JobRecord :=
  if negb (Text.truthy (get job_data)) then set v job_data else job_data.

(** ** Apna.co *)

Module Apna.

Definition title_selectors : list string :=
  [ "h2 a"; "h3 a"; ".job-title a"; ".title a";
    "a[href*=" +:+ dquote +:+ "job" +:+ dquote +:+ "]"; ".job-name"; ".position" ].
Definition title_text_selectors : list string :=
  [ "h2"; "h3"; ".job-title"; ".title"; ".job-name" ].
Definition company_selectors : list string :=
  [ ".company-name"; ".company"; ".employer"; ".org-name"; ".business-name" ].
Definition location_selectors : list string :=
  [ ".location"; ".job-location"; ".place"; ".city" ].
Definition salary_selectors : list string :=
  [ ".salary"; ".pay"; ".wage"; ".compensation" ].
Definition desc_selectors : list string :=
  [ ".description"; ".job-desc"; ".summary"; ".details" ].

(** [if href.startswith('/'): f"https://apna.co{href}" else: href] *)
Definition resolve (h : string) : string :=
  if Text.startswith h "/" then "https://apna.co" +:+ h else h.

(** [if href and self.is_valid_job_url(href): job_data['apply_url'] = ...] *)
Definition take_link (h : option string) (job_data : JobRecord) : option JobRecord :=
  match h with
  | Some h =>
      if Text.truthy h && is_valid_job_url h
      then Some (set_apply_url (resolve h) job_data)
      else None
  | None => None
  end.

(** Extract job title and link *)
Definition extract_title (card : Card) (job_data : JobRecord) : JobRecord :=
  match first_match card title_selectors with
  | Some title_elem =>
      let job_data := set_title (get_text_strip title_elem) job_data in
      default job_data (take_link (href title_elem) job_data)
  | None => job_data
  end.

(** If no link found, try text-only title *)
Definition extract_text_title (card : Card) (job_data : JobRecord) : JobRecord :=
  if negb (Text.truthy (title job_data))
  then extract_field set_title card title_text_selectors job_data
  else job_data.

(** The loop over [all_links], left at the first valid link. *)
Fixpoint first_valid_link (links : list Element) (job_data : JobRecord) : JobRecord :=
  match links with
  | [] => job_data
  | link :: rest =>
      match take_link (href link) job_data with
      | Some job_data => job_data
      | None => first_valid_link rest job_data
      end
  end.

(** If still no apply URL, look for any job-related links in the card *)
Definition extract_any_link (card : Card) (job_data : JobRecord) : JobRecord :=
  if decide (apply_url job_data = "#")
  then first_valid_link (find_all_links card) job_data
  else job_data.

(** Ensure we have a working apply URL *)
Definition ensure_apply_url (job_data : JobRecord) : JobRecord :=
  if bool_decide (apply_url job_data = "#") || negb (is_valid_job_url (apply_url job_data))
  then set_apply_url
         (get_fallback_job_url (title job_data) (company job_data) "Apna.co") job_data
  else job_data.

End Apna.

(** [SimpleJobSearch.parse_apna_job_card] *)
Definition parse_apna_job_card (card : Card) : option JobRecord :=
  let job_data := initial_job_data "Apna.co" in
  let job_data := Apna.extract_title card job_data in
  let job_data := Apna.extract_text_title card job_data in
  let job_data := Apna.extract_any_link card job_data in
  let job_data := extract_field set_company card Apna.company_selectors job_data in
  let job_data := extract_field set_location card Apna.location_selectors job_data in
  let job_data := extract_field set_salary card Apna.salary_selectors job_data in
  let job_data := extract_description card Apna.desc_selectors job_data in
  (* Only return if we have essential data *)
  if Text.truthy (title job_data) then
    (* Set defaults *)
    let job_data := default_field company set_company "Various Companies" job_data in
    let job_data := default_field location set_location "India" job_data in
    let job_data := default_field experience set_experience "As per requirement" job_data in
    let job_data := Apna.ensure_apply_url job_data in
    Some job_data
  else None.

(** ** TimesJobs *)

Module TimesJobs.

Definition title_selectors : list string :=
  [ "h2 a[title]"; ".jobTitle a"; "h3.jobTitle a"; "a.job-title"; ".position a"; "h2 a" ].
Definition company_selectors : list string :=
  [ ".comp-name a"; ".company-name"; ".companyName"; "h3.joblist-comp-name"; ".job-advertiser" ].
Definition location_selectors : list string :=
  [ ".location .locationsContainer"; ".job-location"; ".locationsContainer"; ".loc" ].
Definition exp_selectors : list string :=
  [ ".experience .expwdth"; ".exp"; ".job-experience" ].
Definition salary_selectors : list string :=
  [ ".salary .sal"; ".package"; ".ctc" ].
Definition desc_selectors : list string :=
  [ ".job-description"; ".list-job-dtl"; ".more-info" ].

(** TimesJobs URLs are usually relative. *)
Definition resolve (h : string) : string :=
  if Text.startswith h "/" then "https://www.timesjobs.com" +:+ h
  else if Text.startswith h "http" then h
  else "https://www.timesjobs.com/" +:+ h.

(** Extract job title and link *)
Definition extract_title (card : Card) (job_data : JobRecord) : JobRecord :=
  match first_match card title_selectors with
  | Some title_elem =>
      let job_data := set_title (get_text_strip title_elem) job_data in
      if href_truthy (href title_elem)
      then set_apply_url (resolve (default "" (href title_elem))) job_data
      else job_data
  | None => job_data
  end.

(** Ensure we have a working apply URL *)
Definition ensure_apply_url (job_data : JobRecord) : JobRecord :=
  if decide (apply_url job_data = "#")
  then set_apply_url
         (get_fallback_job_url (title job_data) (company job_data) "TimesJobs") job_data
  else job_data.

End TimesJobs.

(** [SimpleJobSearch.parse_timesjobs_job_card] *)
Definition parse_timesjobs_job_card (card : Card) : option JobRecord :=
  let job_data := initial_job_data "TimesJobs" in
  let job_data := TimesJobs.extract_title card job_data in
  let job_data := extract_field set_company card TimesJobs.company_selectors job_data in
  let job_data := extract_field set_location card TimesJobs.location_selectors job_data in
  let job_data := extract_field set_experience card TimesJobs.exp_selectors job_data in
  let job_data := extract_field set_salary card TimesJobs.salary_selectors job_data in
  let job_data := extract_description card TimesJobs.desc_selectors job_data in
  (* Only return if we have essential data *)
  if Text.truthy (title job_data) && Text.truthy (company job_data) then
    (* Set defaults *)
    let job_data := default_field location set_location "India" job_data in
    let job_data := default_field experience set_experience "As per requirement" job_data in
    let job_data := TimesJobs.ensure_apply_url job_data in
    Some job_data
  else None.

(** ** Indeed *)

Module Indeed.

Definition title_selectors : list string :=
  [ "h2 a[data-jk]"; ".jobTitle a"; "h2.jobTitle a";
    "[data-testid=" +:+ dquote +:+ "job-title" +:+ dquote +:+ "] a"; "a[data-jk]" ].
Definition company_selectors : list string :=
  [ ".companyName"; "[data-testid=" +:+ dquote +:+ "company-name" +:+ dquote +:+ "]";
    ".company"; "span.companyName a"; "span.companyName" ].
Definition location_selectors : list string :=
  [ ".companyLocation"; "[data-testid=" +:+ dquote +:+ "job-location" +:+ dquote +:+ "]";
    ".location"; "div.companyLocation" ].
Definition salary_selectors : list string :=
  [ ".salary-snippet"; ".salaryText";
    "[data-testid=" +:+ dquote +:+ "job-salary" +:+ dquote +:+ "]"; ".salary" ].
Definition desc_selectors : list string :=
  [ ".job-snippet"; ".summary"; "[data-testid=" +:+ dquote +:+ "job-snippet" +:+ dquote +:+ "]" ].

Definition resolve (h : string) : string :=
  if Text.startswith h "/" then "https://www.indeed.com" +:+ h else h.

(** Extract job title and link *)
Definition extract_title (card : Card) (job_data : JobRecord) : JobRecord :=
  match first_match card title_selectors with
  | Some title_elem =>
      let job_data := set_title (get_text_strip title_elem) job_data in
      if href_truthy (href title_elem)
      then set_apply_url (resolve (default "" (href title_elem))) job_data
      else job_data
  | None => job_data
  end.

End Indeed.

(** [SimpleJobSearch.parse_indeed_job_card] *)
Definition parse_indeed_job_card (card : Card) : option JobRecord :=
  let job_data := initial_job_data "Indeed" in
  let job_data := Indeed.extract_title card job_data in
  let job_data := extract_field set_company card Indeed.company_selectors job_data in
  let job_data := extract_field set_location card Indeed.location_selectors job_data in
  let job_data := extract_field set_salary card Indeed.salary_selectors job_data in
  let job_data := extract_description card Indeed.desc_selectors job_data in
  (* Only return if we have essential data *)
  if Text.truthy (title job_data) && Text.truthy (company job_data) then
    (* Set defaults *)
    let job_data := default_field location set_location "Remote" job_data in
    let job_data := default_field experience set_experience "Not specified" job_data in
    Some job_data
  else None.

(** ** LinkedIn *)

(** [SimpleJobSearch.get_text]: the stripped text of the first selector that
    matches, the empty string when none does. *)
Definition get_text (element : Card) (selectors : list string) : string :=
  match first_match element selectors with
  | Some found => get_text_strip found
  | None => ""
  end.

(** Python's [a or b] on strings *)
Definition str_or (a b : string) : string := if Text.truthy a then a else b.

Module LinkedIn.

Definition title_selectors : list string := [ "h3"; ".result-card__title"; ".job-title" ].
Definition company_selectors : list string := [ "h4"; ".result-card__subtitle"; ".company-name" ].
Definition location_selectors : list string :=
  [ ".job-search-card__location"; ".result-card__location" ].

(** [link_elem['href'] if link_elem and link_elem.get('href') else "#"],
    with [link_elem = card.find('a')] *)
Definition job_link (card : Card) : string :=
  match head (anchors card) with
  | Some link_elem =>
      if href_truthy (href link_elem) then default "" (href link_elem) else "#"
  | None => "#"
  end.

Definition resolve (job_link : string) : string :=
  if Text.startswith job_link "/" then "https://www.linkedin.com" +:+ job_link
  else job_link.

End LinkedIn.

(** [SimpleJobSearch.parse_linkedin_job] *)
Definition parse_linkedin_job (card : Card) : option JobRecord :=
  let title := get_text card LinkedIn.title_selectors in
  let company := get_text card LinkedIn.company_selectors in
  let location := get_text card LinkedIn.location_selectors in
  (* Get job link *)
  let job_link := LinkedIn.job_link card in
  let job_link := LinkedIn.resolve job_link in
  Some {| title := str_or title "Software Developer";
          company := str_or company "Tech Company";
          location := str_or location "Remote";
          experience := "Not specified";
          salary := "Not disclosed";
          apply_url := job_link;
          description := None;
          source := "LinkedIn" |}.

(** ** Sample jobs, substituted when scraping fails *)

(** [xs[i % len(xs)]] on a list of strings *)
Definition cycle_nth (xs : list string) (i : nat) : string :=
  nth (i mod length xs) xs "".

(** [SimpleJobSearch.get_sample_apna_jobs] *)
Definition get_sample_apna_jobs (job_title location : string) : list JobRecord :=
  let companies := [ "Zomato"; "Swiggy"; "Urban Company"; "Dunzo";
                     "BigBasket"; "Grofers"; "Ola"; "Uber" ] in
  let locations := [ "Delhi"; "Mumbai"; "Bangalore"; "Hyderabad";
                     "Chennai"; "Pune"; "Kolkata"; "Ahmedabad" ] in
  map (fun i : nat =>
         let n := N.of_nat i in
         let company := cycle_nth companies i in
         let title :=
           if decide (i = 0) then job_title
           else if decide (i = 1) then "Senior " +:+ job_title
           else job_title +:+ " - " +:+ company in
         {| title := title;
            company := company;
            location := cycle_nth locations i;
            experience :=
              if decide (0 < i)
              then Text.str_of_N (1 + n) +:+ "-" +:+ Text.str_of_N (3 + n) +:+ " years"
              else "Fresher";
            salary := "₹" +:+ Text.str_of_N (15 + n * 5) +:+ "k - ₹"
                        +:+ Text.str_of_N (25 + n * 8) +:+ "k per month";
            description :=
              Some ("Exciting " +:+ job_title +:+ " opportunity at " +:+ company
                      +:+ " with growth potential and competitive benefits.");
            apply_url := get_fallback_job_url title company "Apna.co";
            source := "Apna.co" |})
      (seq 0 6).

(** [SimpleJobSearch.get_sample_timesjobs] *)
Definition get_sample_timesjobs (job_title location : string) : list JobRecord :=
  let companies := [ "Accenture"; "Capgemini"; "IBM"; "Deloitte"; "EY"; "KPMG" ] in
  let locations := [ "Gurgaon"; "Noida"; "Bangalore"; "Hyderabad"; "Chennai"; "Mumbai" ] in
  map (fun i : nat =>
         let n := N.of_nat i in
         let company := cycle_nth companies i in
         let title := if decide (i = 0) then job_title else "Senior " +:+ job_title in
         {| title := title;
            company := company;
            location := cycle_nth locations i;
            experience := Text.str_of_N (2 + n) +:+ "-" +:+ Text.str_of_N (5 + n) +:+ " years";
            salary := "₹" +:+ Text.str_of_N (4 + n * 3) +:+ "-"
                        +:+ Text.str_of_N (8 + n * 4) +:+ " Lakh PA";
            description :=
              Some ("Great " +:+ job_title +:+ " opportunity at " +:+ company +:+ ".");
            apply_url := get_fallback_job_url title company "TimesJobs";
            source := "TimesJobs" |})
      (seq 0 4).

(** [SimpleJobSearch.get_sample_linkedin_jobs] *)
Definition get_sample_linkedin_jobs (job_title : string) : list JobRecord :=
  let companies := [ "Microsoft"; "Google"; "Amazon"; "Meta"; "Apple" ] in
  let locations := [ "Remote"; "San Francisco"; "Seattle"; "New York"; "Austin" ] in
  map (fun i : nat =>
         let n := N.of_nat i in
         {| title := "Senior " +:+ job_title;
            company := cycle_nth companies i;
            location := cycle_nth locations i;
            experience := Text.str_of_N (3 + n) +:+ "+ years";
            salary := "$" +:+ Text.str_of_N (80 + n * 20) +:+ "k - $"
                        +:+ Text.str_of_N (120 + n * 20) +:+ "k";
            description :=
              Some ("Exciting opportunity for " +:+ job_title +:+ " at "
                      +:+ cycle_nth companies i +:+ " with competitive benefits.");
            apply_url := "https://www.linkedin.com/jobs/view/" +:+ Text.str_of_N (1000000 + n);
            source := "LinkedIn" |})
      (seq 0 5).

(** ** The extractors

    What an extractor gets from the network is the outcome of its [try]
    block's fetch: an exception (connection error, timeout, ...), or a
    response with its status code and the job cards found in the page. *)

Inductive Fetch :=
  | FetchRaises (msg : string)
  | FetchResponse (status_code : N) (job_cards : list Card).

(** The loop [for card in job_cards[:n]: job = parse(card); if job:
    jobs.append(job)], run only on status 200. *)
Definition scrape (parse : Card -> option JobRecord) (limit : nat)
    (status_code : N) (job_cards : list Card) : list JobRecord :=
  if decide (status_code = 200%N) then omap parse (take limit job_cards) else [].

(** [SimpleJobSearch.search_apna] *)
Definition search_apna (job_title location : string) (fetch : Fetch) : list JobRecord :=
  match fetch with
  | FetchResponse status_code job_cards =>
      let jobs := scrape parse_apna_job_card 8 status_code job_cards in
      (* Fallback to sample data if needed *)
      match jobs with
      | [] => get_sample_apna_jobs job_title location
      | _ => jobs
      end
  | FetchRaises _ => get_sample_apna_jobs job_title location
  end.

(** [SimpleJobSearch.search_timesjobs] *)
Definition search_timesjobs (job_title location : string) (fetch : Fetch) : list JobRecord :=
  match fetch with
  | FetchResponse status_code job_cards =>
      let jobs := scrape parse_timesjobs_job_card 8 status_code job_cards in
      (* Fallback to sample data if needed *)
      match jobs with
      | [] => get_sample_timesjobs job_title location
      | _ => jobs
      end
  | FetchRaises _ => get_sample_timesjobs job_title location
  end.

(** [SimpleJobSearch.search_linkedin]: the sample jobs are substituted in the
    [except] branch only. *)
Definition search_linkedin (job_title location : string) (fetch : Fetch) : list JobRecord :=
  match fetch with
  | FetchResponse status_code job_cards =>
      scrape parse_linkedin_job 10 status_code job_cards
  | FetchRaises _ =>
      (* Add sample jobs as fallback *)
      get_sample_linkedin_jobs job_title
  end.

(** ** [SimpleJobSearch.search_jobs] *)

Definition is_linkedin (job : JobRecord) : bool :=
  Text.contains "linkedin" (Text.lower (source job)).
Definition is_timesjobs (job : JobRecord) : bool :=
  Text.contains "timesjobs" (Text.lower (source job)).

(** One round of the mixing loop: [timesjobs_jobs[i]] and then
    [linkedin_jobs[i]], each when the index is in range. *)
Definition mix_step (timesjobs_jobs linkedin_jobs : list JobRecord)
    (mixed_jobs : list JobRecord) (i : nat) : list JobRecord :=
  let mixed_jobs :=
    match timesjobs_jobs !! i with
    | Some job => mixed_jobs ++ [job]
    | None => mixed_jobs
    end in
  match linkedin_jobs !! i with
  | Some job => mixed_jobs ++ [job]
  | None => mixed_jobs
  end.

(** The loop [for i in range(max_len)] *)
Definition alternate (timesjobs_jobs linkedin_jobs : list JobRecord) : list JobRecord :=
  let max_len := Nat.max (length linkedin_jobs) (length timesjobs_jobs) in
  fold_left (mix_step timesjobs_jobs linkedin_jobs) (seq 0 max_len) [].

(** Sort jobs to mix sources (alternate between LinkedIn and TimesJobs) *)
Definition mix_sources (unique_jobs : list JobRecord) : list JobRecord :=
  let linkedin_jobs := List.filter is_linkedin unique_jobs in
  let timesjobs_jobs := List.filter is_timesjobs unique_jobs in
  alternate timesjobs_jobs linkedin_jobs.

(** The network, as one call of [search_jobs] meets it. *)
Record World := mkWorld {
  timesjobs_fetch : Fetch;
  linkedin_fetch : Fetch
}.

(** [all_jobs] as it stands when the duplicates are removed. *)
Definition collect_jobs (job_title location : string) (w : World) : list JobRecord :=
  let timesjobs := search_timesjobs job_title location (timesjobs_fetch w) in
  let all_jobs := timesjobs in
  let linkedin_jobs := search_linkedin job_title location (linkedin_fetch w) in
  let all_jobs := all_jobs ++ linkedin_jobs in
  let timesjobs_count := length (List.filter is_timesjobs all_jobs) in
  (* If no TimesJobs found, add some sample ones *)
  if decide (timesjobs_count = 0)
  then all_jobs ++ take 4 (get_sample_timesjobs job_title location)
  else all_jobs.

Definition search_jobs (job_title location : string) (w : World) : list JobRecord :=
  let unique_jobs := remove_duplicates (collect_jobs job_title location w) in
  mix_sources unique_jobs.

(** ** Exceptions *)

(** A Python exception: its class and [str(e)]. *)
Record PyExn := mkExn { exn_class : string; exn_str : string }.

(** A computation that returns or raises. *)
Definition Result (A : Type) : Type := PyExn + A.

Definition raise {A} (e : PyExn) : Result A := inl e.

#[global] Instance Result_ret : MRet Result := fun A (a : A) => inr a.
#[global] Instance Result_bind : MBind Result := fun A B (k : A -> Result B) (m : Result A) =>
  match m with
  | inl e => inl e
  | inr a => k a
  end.

(** ** [SimpleJobSearch.save_to_csv]

    The file is the list of the rows written to it, a row the list of its
    cells; how [csv.writer] quotes and joins the cells is the library's. *)

Definition fieldnames : list string :=
  [ "title"; "company"; "location"; "experience"; "salary"; "apply_url"; "source" ].

(** The job dictionary as [csv.DictWriter] receives it. *)
Definition job_dict (job : JobRecord) : gmap string string :=
  let d : gmap string string :=
    <["source" := source job]>
      (<["apply_url" := apply_url job]>
        (<["salary" := salary job]>
          (<["experience" := experience job]>
            (<["location" := location job]>
              (<["company" := company job]>
                (<["title" := title job]> ∅)))))) in
  match description job with
  | Some d' => <["description" := d']> d
  | None => d
  end.

(** [repr(s)] of a key *)
Definition repr (s : string) : string := "'" +:+ s +:+ "'".

Fixpoint join_with (sep : string) (parts : list string) : string :=
  match parts with
  | [] => ""
  | [p] => p
  | p :: rest => p +:+ sep +:+ join_with sep rest
  end.

(** [DictWriter._dict_to_list] with the default [extrasaction='raise'] and
    [restval='']: a key outside [fieldnames] is a [ValueError]. *)
Definition dict_to_list (rowdict : gmap string string) : Result (list string) :=
  let wrong_fields : gset string := dom rowdict ∖ list_to_set fieldnames in
  if decide (wrong_fields = ∅)
  then mret (map (fun key => default "" (rowdict !! key)) fieldnames)
  else raise (mkExn "ValueError"
                ("dict contains fields not in fieldnames: "
                   +:+ join_with ", " (map repr (elements wrong_fields)))).

(** The loop [for job in jobs: writer.writerow(job)] on the open file: the
    rows written so far stay in the file when a row raises. *)
Fixpoint write_rows (jobs : list JobRecord) (csvfile : list (list string))
    : list (list string) * Result unit :=
  match jobs with
  | [] => (csvfile, mret tt)
  | job :: rest =>
      match dict_to_list (job_dict job) with
      | inr row => write_rows rest (csvfile ++ [row])
      | inl e => (csvfile, raise e)
      end
  end.

(** [save_to_csv(jobs, filename)]; [timestamp] is
    [datetime.now().strftime("%Y%m%d_%H%M%S")].  The result is the content of
    the file and what the call returns or raises. *)
Definition save_to_csv (jobs : list JobRecord) (filename : option string)
    (timestamp : string) : list (list string) * Result string :=
  let filename :=
    match filename with
    | Some f => if Text.truthy f then f else "jobs_" +:+ timestamp +:+ ".csv"
    | None => "jobs_" +:+ timestamp +:+ ".csv"
    end in
  (* writer.writeheader() *)
  let csvfile := [ fieldnames ] in
  let '(csvfile, r) := write_rows jobs csvfile in
  (csvfile, r ;; mret filename).

(** ** The [/search] route of [simple_web_app.py] *)

(** A JSON value as [request.json] decodes it; of the values that are not
    strings only the Python type matters here. *)
Inductive Json :=
  | JStr (s : string)
  | JNull | JBool | JInt | JFloat | JList | JDict.

Definition type_name (v : Json) : string :=
  match v with
  | JStr _ => "str"
  | JNull => "NoneType"
  | JBool => "bool"
  | JInt => "int"
  | JFloat => "float"
  | JList => "list"
  | JDict => "dict"
  end.

Definition attribute_error (ty attr : string) : PyExn :=
  mkExn "AttributeError" ("'" +:+ ty +:+ "' object has no attribute '" +:+ attr +:+ "'").

(** [v.strip()] *)
Definition py_strip (v : Json) : Result string :=
  match v with
  | JStr s => mret (Text.strip s)
  | _ => raise (attribute_error (type_name v) "strip")
  end.

(** What [request.json] gives: it raises (no JSON body), or the body is a
    JSON object, or some other JSON value ([JsonOther v] with [v] no
    [JDict]). *)
Inductive RequestJson :=
  | JsonRaises (e : PyExn)
  | JsonObject (fields : gmap string Json)
  | JsonOther (v : Json).

(** [data.get(key, dflt)] *)
Definition data_get (data : RequestJson) (key : string) (dflt : Json) : Result Json :=
  match data with
  | JsonRaises e => raise e
  | JsonObject fields => mret (default dflt (fields !! key))
  | JsonOther v => raise (attribute_error (type_name v) "get")
  end.

(** The body of a response. *)
Inductive ResponseJson :=
  | ErrorOnly (error : string)                         (* {'error': ...} *)
  | Success (jobs : list JobRecord) (count : nat)      (* {'success': True, ...} *)
  | Failure (error : string).                          (* {'success': False, ...} *)

Section Route.

(** [SimpleJobSearch().search_jobs], which may raise. *)
Variable run_search : string -> string -> Result (list JobRecord).

(** The [try] block of the route. *)
Definition search_route_try (data : RequestJson) : Result (ResponseJson * N) :=
  v ← data_get data "job_title" (JStr "");
  job_title ← py_strip v;
  v ← data_get data "location" (JStr "India");
  location ← py_strip v;
  if negb (Text.truthy job_title)
  then mret (ErrorOnly "Job title is required", 400%N)
  else
    jobs ← run_search job_title location;
    mret (Success jobs (length jobs), 200%N).

(** The route: [except Exception as e] answers 500. *)
Definition search_route (data : RequestJson) : ResponseJson * N :=
  match search_route_try data with
  | inr response => response
  | inl e => (Failure (exn_str e), 500%N)
  end.

End Route.

(** The route over the modelled pipeline, which returns. *)
Definition search_endpoint (w : World) (data : RequestJson) : ResponseJson * N :=
  search_route (fun job_title location => mret (search_jobs job_title location w)) data.

(** ** The properties the specification words, as definitions of their own *)

(** First-seen wins: a record survives exactly when no record before it in
    the input has its key; the survivors keep their input order. *)
Definition first_seen (jobs : list JobRecord) : list JobRecord :=
  omap id
    (imap (fun i job =>
             if decide (dedup_key job ∈ dedup_key <$> take i jobs)
             then None else Some job)
          jobs).

(** Round-robin merge: in round [i] the [i]-th record of every sub-sequence
    that has one, the sub-sequences visited in the order of [sources]; as many
    rounds as the longest sub-sequence has records. *)
Definition round_robin (sources : list (list JobRecord)) : list JobRecord :=
  let rounds := max_list (map length sources) in
  concat (map (fun i => omap (fun s : list JobRecord => s !! i) sources) (seq 0 rounds)).

(** The sub-sequence of the records of one source. *)
Definition from_source (S : string) (jobs : list JobRecord) : list JobRecord :=
  List.filter (fun job => bool_decide (source job = S)) jobs.

(** An absolute http(s) URL. *)
Definition is_absolute_url (url : string) : bool :=
  Text.startswith url "http://" || Text.startswith url "https://".

(** ** The normalizer, parser by parser

    The specification speaks of one normalizer; the program has a card parser
    per site.  The tables below name, for every site, the parser, the
    candidate fields that it reads off a card and the defaults that it
    assigns. *)

Inductive Site := ApnaSite | TimesJobsSite | IndeedSite | LinkedInSite.

Definition parse_card (site : Site) : Card -> option JobRecord :=
  match site with
  | ApnaSite => parse_apna_job_card
  | TimesJobsSite => parse_timesjobs_job_card
  | IndeedSite => parse_indeed_job_card
  | LinkedInSite => parse_linkedin_job
  end.

(** The title read off the card, before any rule is applied to it. *)
Definition candidate_title (site : Site) (card : Card) : string :=
  match site with
  | ApnaSite =>
      str_or (get_text card Apna.title_selectors) (get_text card Apna.title_text_selectors)
  | TimesJobsSite => get_text card TimesJobs.title_selectors
  | IndeedSite => get_text card Indeed.title_selectors
  | LinkedInSite => get_text card LinkedIn.title_selectors
  end.

Definition company_selectors (site : Site) : list string :=
  match site with
  | ApnaSite => Apna.company_selectors
  | TimesJobsSite => TimesJobs.company_selectors
  | IndeedSite => Indeed.company_selectors
  | LinkedInSite => LinkedIn.company_selectors
  end.

Definition location_selectors (site : Site) : list string :=
  match site with
  | ApnaSite => Apna.location_selectors
  | TimesJobsSite => TimesJobs.location_selectors
  | IndeedSite => Indeed.location_selectors
  | LinkedInSite => LinkedIn.location_selectors
  end.

(** Only the TimesJobs parser looks for the experience. *)
Definition experience_selectors (site : Site) : list string :=
  match site with
  | TimesJobsSite => TimesJobs.exp_selectors
  | _ => []
  end.

(** The LinkedIn parser looks neither for a salary nor for a description. *)
Definition salary_selectors (site : Site) : list string :=
  match site with
  | ApnaSite => Apna.salary_selectors
  | TimesJobsSite => TimesJobs.salary_selectors
  | IndeedSite => Indeed.salary_selectors
  | LinkedInSite => []
  end.

Definition desc_selectors (site : Site) : list string :=
  match site with
  | ApnaSite => Apna.desc_selectors
  | TimesJobsSite => TimesJobs.desc_selectors
  | IndeedSite => Indeed.desc_selectors
  | LinkedInSite => []
  end.

Definition location_default (site : Site) : string :=
  match site with
  | ApnaSite | TimesJobsSite => "India"
  | IndeedSite | LinkedInSite => "Remote"
  end.

Definition experience_default (site : Site) : string :=
  match site with
  | ApnaSite | TimesJobsSite => "As per requirement"
  | IndeedSite | LinkedInSite => "Not specified"
  end.

(** The link of the title element, when it is not empty. *)
Definition title_link (card : Card) (selectors : list string) : option string :=
  match first_match card selectors with
  | Some title_elem =>
      if href_truthy (href title_elem) then href title_elem else None
  | None => None
  end.

(** A record of one of the two sources that [search_jobs] queries. *)
Definition known_source (job : JobRecord) : Prop :=
  source job = "TimesJobs" ∨ source job = "LinkedIn".

(** ** Cards for the examples *)

(** A card given by the elements that its selectors find and by its links. *)
Definition card_of (elems : list (string * Element)) (links : list Element) : Card :=
  mkCard (fun selector => (list_to_map elems : gmap string Element) !! selector) links.

Definition text_elem (text : string) : Element := mkElement [text] None.
Definition link_elem (text url : string) : Element := mkElement [text] (Some url).

(** A card in which no selector finds anything. *)
Definition empty_card : Card := card_of [] [].

(** A TimesJobs card with a linked title, a company and a short description. *)
Definition timesjobs_card : Card :=
  card_of [ ("h2 a", link_elem " Data Analyst " "/job-detail/data-analyst-1");
            (".company-name", text_elem "Acme");
            (".job-description", text_elem "Good role") ] [].

(** A TimesJobs card whose title links to a page that is no job posting. *)
Definition timesjobs_card_foreign_link : Card :=
  card_of [ ("h2 a", link_elem "Data Analyst" "https://example.com/about");
            (".company-name", text_elem "Acme") ] [].

(** A TimesJobs card whose title is blank. *)
Definition timesjobs_card_blank_title : Card :=
  card_of [ ("h2 a", link_elem "   " "/job-detail/1");
            (".company-name", text_elem "Acme") ] [].

(** An Apna card with a text-only title and a job link elsewhere in the card. *)
Definition apna_card : Card :=
  card_of [ ("h2", text_elem "Delivery Partner") ]
          [ link_elem "About" "/about"; link_elem "Apply" "/job/delivery-partner-7" ].

(** An Indeed card with a title and a company. *)
Definition indeed_card : Card :=
  card_of [ ("h2 a[data-jk]", link_elem "Data Engineer" "/viewjob?jk=1");
            (".companyName", text_elem "Initech") ] [].

(** A LinkedIn card with a title, a company and a relative link. *)
Definition linkedin_card : Card :=
  card_of [ ("h3", text_elem "Data Analyst"); ("h4", text_elem "Globex") ]
          [ link_elem "Data Analyst" "/jobs/view/42" ].

(** ** The functions that [search_jobs] does not call *)

(** [SimpleJobSearch.get_sample_indeed_jobs] *)
Definition get_sample_indeed_jobs (job_title location : string) : list JobRecord :=
  let companies := [ "Microsoft"; "Google"; "Amazon"; "Apple";
                     "Meta"; "Netflix"; "Uber"; "Airbnb" ] in
  let locations := [ "Remote"; "San Francisco, CA"; "Seattle, WA";
                     "New York, NY"; "Austin, TX" ] in
  map (fun i : nat =>
         let n := N.of_nat i in
         {| title :=
              if decide (i = 0) then job_title
              else if decide (i = 1) then "Senior " +:+ job_title
              else job_title +:+ " - " +:+ cycle_nth companies i;
            company := cycle_nth companies i;
            location := cycle_nth locations i;
            experience := Text.str_of_N (2 + n) +:+ "-" +:+ Text.str_of_N (5 + n) +:+ " years";
            salary := "$" +:+ Text.str_of_N (60 + n * 15) +:+ "k - $"
                        +:+ Text.str_of_N (90 + n * 15) +:+ "k";
            description :=
              Some ("Exciting " +:+ job_title +:+ " opportunity at " +:+ cycle_nth companies i
                      +:+ " with competitive benefits and growth opportunities.");
            apply_url := "https://www.indeed.com/viewjob?jk=sample" +:+ Text.str_of_N n;
            source := "Indeed" |})
      (seq 0 6).

(** The loop of [parse_indeed_alternative] over [all_links]; it is left as
    soon as five jobs are found. *)
Fixpoint indeed_alternative_loop (all_links : list Element) (location : string)
    (jobs : list JobRecord) : list JobRecord :=
  match all_links with
  | [] => jobs
  | link :: rest =>
      let href := default "" (href link) in
      let text := get_text_strip link in
      if (10 <? String.length text)%nat
         && (Text.contains "/viewjob" href || Text.contains "/jobs/" href)
         && existsb (fun word => Text.contains word (Text.lower text))
              [ "developer"; "engineer"; "analyst" ]
      then
        let href :=
          if Text.startswith href "/" then "https://www.indeed.com" +:+ href else href in
        let jobs :=
          jobs ++ [ {| title := text;
                       company := "Various Companies";
                       location := location;
                       experience := "As per requirement";
                       salary := "Competitive";
                       description := Some ("Job opportunity: " +:+ text);
                       apply_url := href;
                       source := "Indeed" |} ] in
        if (5 <=? length jobs)%nat then jobs
        else indeed_alternative_loop rest location jobs
      else indeed_alternative_loop rest location jobs
  end.

(** [SimpleJobSearch.parse_indeed_alternative]; the document answers
    [find_all('a', href=True)] as a card does. *)
Definition parse_indeed_alternative (soup : Card) (job_title location : string)
    : list JobRecord :=
  indeed_alternative_loop (find_all_links soup) location [].

(** [SimpleJobSearch.get_realistic_naukri_jobs] *)
Definition get_realistic_naukri_jobs (job_title : string) : list JobRecord :=
  let base_search := Text.replace " " "-" (Text.lower job_title) in
  let job_data :=
    [ (job_title +:+ " - Fresher", "TCS", "Hyderabad, Chennai, Bangalore",
       "0 - 2 years", "₹ 3-4 Lacs P.A.",
       "We are looking for a Python Developer to assist in building scalable applications and automation tools. Key Responsibilities: Write clean and efficient Python code, Learn frameworks like Django or Flask, Work on data processing and scripting tasks.",
       "https://www.naukri.com/" +:+ base_search +:+ "-jobs");
      ("Prompt Engineer (Fresher)", "IT Shops", "Hyderabad, Chennai, Bangalore",
       "4.3 - 17 reviews", "Not disclosed",
       "Exciting opportunity for AI and machine learning enthusiasts. Work with cutting-edge prompt engineering technologies.",
       "https://www.naukri.com/prompt-engineer-jobs");
      (job_title, "Smart Placement Services", "Hybrid - Hyderabad, Bangalore",
       "Posted 21 days ago", "Competitive",
       "Looking for experienced " +:+ job_title
         +:+ " for hybrid work model with flexible timings and growth opportunities.",
       "https://www.naukri.com/" +:+ base_search +:+ "-jobs-in-bangalore");
      (job_title +:+ " - Fresher (WFH)", "AIVOA", "Bangalore",
       "Posted 71 days ago", "₹ 2.5-5 Lacs P.A.",
       "Work from home opportunity for " +:+ job_title
         +:+ " freshers. Complete training provided with mentorship program.",
       "https://www.naukri.com/work-from-home-" +:+ base_search +:+ "-jobs");
      ("Data Engineer", "IT Shops", "Hyderabad, Chennai, Bangalore",
       "4.3 - 17 reviews", "Posted 25 days ago",
       "Data engineering role with modern tech stack including Python, SQL, and cloud platforms. Great learning opportunities.",
       "https://www.naukri.com/data-engineer-jobs");
      (job_title +:+ " Fullstack Developer", "Saushruthi Solutions", "Multiple locations",
       "2-5 years", "₹ 4-8 Lacs P.A.",
       "Full stack development role combining " +:+ job_title
         +:+ " backend with modern frontend frameworks. Exciting projects ahead.",
       "https://www.naukri.com/fullstack-" +:+ base_search +:+ "-jobs") ] in
  (* Add source to each job *)
  map (fun '(t, c, l, e, s, d, u) => mkJob t c l e s (Some d) u "Naukri") job_data.

(** What [parse_indeed_alternative] puts in a record. *)
Definition indeed_alternative_record (loc : string) (job : JobRecord) : Prop :=
  source job = "Indeed"
  ∧ company job = "Various Companies"
  ∧ location job = loc
  ∧ 10 < String.length (title job)
  ∧ description job = Some ("Job opportunity: " +:+ title job)
  ∧ (Text.contains "/viewjob" (apply_url job) = true
     ∨ Text.contains "/jobs/" (apply_url job) = true).

(** ** [main]

    The two answers to [input] are arguments; what [display_jobs] prints is
    left out.  The result is what [main] returns or raises. *)
Definition main (title_input location_input : string) (w : World) (timestamp : string)
    : Result unit :=
  let job_title := Text.strip title_input in
  let job_title := if negb (Text.truthy job_title) then "Software Developer" else job_title in
  let location := Text.strip location_input in
  let location := if negb (Text.truthy location) then "India" else location in
  let jobs := search_jobs job_title location w in
  match jobs with
  | [] => mret tt
  | _ => (save_to_csv jobs None timestamp).2 ;; mret tt
  end.

(** A string of white space only (the empty string is one). *)
Definition is_blank (s : string) : Prop := Text.lstrip s = "".

(** A record as the examples need it: a title, a company and a source. *)
Definition job_of (t c src : string) : JobRecord :=
  mkJob t c "India" "" "Not disclosed" None "#" src.

(** * Properties *)

(** ** Deduplication *)

Section Dedup.

Implicit Types (jobs earlier : list JobRecord) (job : JobRecord).
Implicit Types (seen : gset (string * string)).

Lemma dedup_loop_app jobs1 jobs2 st :
  fold_left dedup_step (jobs1 ++ jobs2) st
  = fold_left dedup_step jobs2 (fold_left dedup_step jobs1 st).
Proof. apply fold_left_app. Qed.

(** The loop's [seen] is the set of the keys met so far. *)
Lemma dedup_loop_seen jobs seen acc :
  (fold_left dedup_step jobs (seen, acc)).1
  = list_to_set ((dedup_key <$> jobs)) ∪ seen.
Proof.
  revert seen acc. induction jobs as [|job jobs IH]; intros seen acc; simpl.
  - set_solver.
  - unfold dedup_step at 2; simpl. case_decide; rewrite IH; set_solver.
Qed.

Lemma remove_duplicates_nil : remove_duplicates [] = [].
Proof. reflexivity. Qed.

(** The record that comes last is dropped exactly when its key occurred. *)
Lemma remove_duplicates_snoc earlier job :
  remove_duplicates (earlier ++ [job])
  = if decide (dedup_key job ∈ (dedup_key <$> earlier))
    then remove_duplicates earlier
    else remove_duplicates earlier ++ [job].
Proof.
  unfold remove_duplicates. rewrite dedup_loop_app. simpl.
  pose proof (dedup_loop_seen earlier ∅ []) as Hseen.
  destruct (fold_left dedup_step earlier (∅, [])) as [seen acc]; simpl in *.
  unfold dedup_step; simpl. subst seen.
  repeat case_decide; simpl; try reflexivity; exfalso.
  - apply H. apply elem_of_union_l, elem_of_list_to_set. done.
  - apply elem_of_union in H as [Hin|Hin]; [by apply elem_of_list_to_set in Hin|].
    by apply not_elem_of_empty in Hin.
Qed.

Lemma first_seen_snoc earlier job :
  first_seen (earlier ++ [job])
  = if decide (dedup_key job ∈ (dedup_key <$> earlier))
    then first_seen earlier
    else first_seen earlier ++ [job].
Proof.
  unfold first_seen. rewrite imap_app, omap_app. simpl.
  rewrite Nat.add_0_r, take_app_length.
  assert (imap (λ i job0,
             if decide (dedup_key job0 ∈ dedup_key <$> take i (earlier ++ [job]))
             then None else Some job0) earlier
          = imap (λ i job0,
             if decide (dedup_key job0 ∈ dedup_key <$> take i earlier)
             then None else Some job0) earlier) as ->.
  { apply imap_ext. intros i x Hi. simpl.
    rewrite take_app_le; [done|]. apply lookup_lt_Some in Hi. lia. }
  case_decide; simpl; [by rewrite app_nil_r | done].
Qed.

Lemma remove_duplicates_first_seen jobs : remove_duplicates jobs = first_seen jobs.
Proof.
  induction jobs as [|job earlier IH] using rev_ind; [done|].
  by rewrite remove_duplicates_snoc, first_seen_snoc, IH.
Qed.

Lemma remove_duplicates_sublist jobs : remove_duplicates jobs `sublist_of` jobs.
Proof.
  induction jobs as [|job earlier IH] using rev_ind; [done|].
  rewrite remove_duplicates_snoc. case_decide.
  - by apply sublist_inserts_r.
  - by apply sublist_app.
Qed.

Lemma remove_duplicates_keys jobs k :
  k ∈ (dedup_key <$> remove_duplicates jobs) ↔ k ∈ (dedup_key <$> jobs).
Proof.
  induction jobs as [|job earlier IH] using rev_ind; [done|].
  rewrite remove_duplicates_snoc. case_decide.
  - rewrite fmap_app, elem_of_app, IH. simpl. rewrite list_elem_of_singleton.
    split; [tauto|]. by intros [?| ->].
  - rewrite !fmap_app, !elem_of_app, IH. done.
Qed.

Lemma remove_duplicates_NoDup jobs : NoDup ((dedup_key <$> remove_duplicates jobs)).
Proof.
  induction jobs as [|job earlier IH] using rev_ind; [constructor|].
  rewrite remove_duplicates_snoc. case_decide; [done|].
  rewrite fmap_app. apply NoDup_app. split_and!; [done| |apply NoDup_singleton].
  intros k Hk. rewrite remove_duplicates_keys in Hk. simpl.
  rewrite list_elem_of_singleton. by intros ->.
Qed.

End Dedup.

(** C1. The deduplicator keys a record by its lower-cased, trimmed title and
    company ([dedup_key]).  A record is dropped exactly when a record before
    it in the input has the same key; the first record of every key is kept
    as it is, and the survivors stand in their input order: the result is
    [first_seen], a sub-sequence of the input, and no key occurs twice in it
    while every key of the input still occurs. *)
Theorem remove_duplicates_first_seen_wins (jobs : list JobRecord) :
  (∀ job, dedup_key job
          = (Text.strip (Text.lower (title job)), Text.strip (Text.lower (company job))))
  ∧ remove_duplicates jobs = first_seen jobs
  ∧ (∀ earlier job, jobs = earlier ++ [job] →
       remove_duplicates jobs
       = if decide (dedup_key job ∈ (dedup_key <$> earlier))
         then remove_duplicates earlier
         else remove_duplicates earlier ++ [job])
  ∧ remove_duplicates jobs `sublist_of` jobs
  ∧ NoDup ((dedup_key <$> remove_duplicates jobs))
  ∧ (∀ k, k ∈ (dedup_key <$> remove_duplicates jobs) ↔ k ∈ (dedup_key <$> jobs)).
Proof.
  split_and!.
  - done.
  - apply remove_duplicates_first_seen.
  - intros earlier job ->. apply remove_duplicates_snoc.
  - apply remove_duplicates_sublist.
  - apply remove_duplicates_NoDup.
  - apply remove_duplicates_keys.
Qed.

(** The example of the specification: same title and company up to case and
    surrounding blanks, whatever the other fields. *)
Example remove_duplicates_case_whitespace :
  let first := mkJob "Python Developer" "TCS" "Pune" "" "" None "u1" "TimesJobs" in
  let second := mkJob " python developer " "tcs" "Delhi" "" "" (Some "d") "u2" "LinkedIn" in
  dedup_key first = dedup_key second
  ∧ remove_duplicates [first; second] = [first].
Proof. split; vm_compute; reflexivity. Qed.

(** ** Interleaving *)

Section Interleave.

Implicit Types (T L : list JobRecord) (P : JobRecord → bool).

Lemma mix_step_acc T L acc i : mix_step T L acc i = acc ++ mix_step T L [] i.
Proof.
  unfold mix_step. destruct (T !! i), (L !! i); simpl;
    rewrite <- ?app_assoc, ?app_nil_r; reflexivity.
Qed.

(** The loop appends one round after the other. *)
Lemma mix_loop T L rounds acc :
  fold_left (mix_step T L) rounds acc = acc ++ concat (mix_step T L [] <$> rounds).
Proof.
  revert acc. induction rounds as [|i rounds IH]; intros acc; simpl.
  - by rewrite app_nil_r.
  - rewrite IH, (mix_step_acc _ _ acc), <- app_assoc. reflexivity.
Qed.

Lemma alternate_rounds T L :
  alternate T L
  = concat (mix_step T L [] <$> seq 0 (Nat.max (length L) (length T))).
Proof. unfold alternate. by rewrite mix_loop. Qed.

Lemma alternate_round_robin T L : alternate T L = round_robin [T; L].
Proof.
  rewrite alternate_rounds. unfold round_robin. simpl.
  replace (length T `max` (length L `max` 0)) with (length L `max` length T) by lia.
  f_equal. apply map_ext. intros i. unfold mix_step.
  destruct (T !! i), (L !! i); reflexivity.
Qed.

Lemma alternate_cons_cons a T b L :
  alternate (a :: T) (b :: L) = a :: b :: alternate T L.
Proof.
  rewrite !alternate_rounds. simpl length.
  rewrite <- Nat.succ_max_distr. simpl.
  rewrite <- fmap_S_seq, <- list_fmap_compose. reflexivity.
Qed.

Lemma alternate_nil_l L : alternate [] L = L.
Proof.
  induction L as [|b L IH]; [done|].
  rewrite alternate_rounds in *. simpl length in *.
  rewrite Nat.max_0_r in *. simpl.
  rewrite <- fmap_S_seq, <- list_fmap_compose. f_equal. exact IH.
Qed.

Lemma alternate_nil_r T : alternate T [] = T.
Proof.
  induction T as [|a T IH]; [done|].
  rewrite alternate_rounds in *. simpl length in *.
  rewrite Nat.max_0_l in *. simpl.
  rewrite <- fmap_S_seq, <- list_fmap_compose. f_equal.
  exact IH.
Qed.

(** Every record of both sub-sequences is emitted once. *)
Lemma alternate_length T L : length (alternate T L) = length T + length L.
Proof.
  revert L. induction T as [|a T IH]; intros L.
  - by rewrite alternate_nil_l.
  - destruct L as [|b L].
    + rewrite alternate_nil_r. simpl. lia.
    + rewrite alternate_cons_cons. simpl. rewrite IH. lia.
Qed.

Lemma filter_none P L : Forall (λ x, P x = false) L → List.filter P L = [].
Proof. induction 1 as [|x L Hx _ IH]; simpl; [done|]. by rewrite Hx. Qed.

Lemma filter_alternate_l P T L :
  Forall (λ x, P x = false) L → List.filter P (alternate T L) = List.filter P T.
Proof.
  revert L. induction T as [|a T IH]; intros L HL.
  - rewrite alternate_nil_l. by apply filter_none.
  - destruct L as [|b L].
    + by rewrite alternate_nil_r.
    + rewrite alternate_cons_cons. inversion_clear HL as [|?? Hb HL'].
      simpl. rewrite Hb, (IH L HL'). reflexivity.
Qed.

Lemma filter_alternate_r P T L :
  Forall (λ x, P x = false) T → List.filter P (alternate T L) = List.filter P L.
Proof.
  revert L. induction T as [|a T IH]; intros L HT.
  - by rewrite alternate_nil_l.
  - inversion_clear HT as [|?? Ha HT']. destruct L as [|b L].
    + rewrite alternate_nil_r. simpl. rewrite Ha. by apply filter_none.
    + rewrite alternate_cons_cons. simpl. rewrite Ha, (IH L HT'). reflexivity.
Qed.

Lemma filter_filter_implied P (Q : JobRecord → bool) jobs :
  Forall (λ x, P x = true → Q x = true) jobs →
  List.filter P (List.filter Q jobs) = List.filter P jobs.
Proof.
  induction 1 as [|x jobs Hx _ IH]; simpl; [done|].
  destruct (Q x) eqn:HQ; simpl; rewrite IH; [done|].
  destruct (P x) eqn:HP; [|done]. specialize (Hx eq_refl). congruence.
Qed.

End Interleave.

(** ** The card parsers *)

(** A job dictionary is its eight fields. *)
Lemma JobRecord_eta (r : JobRecord) :
  r = mkJob (title r) (company r) (location r) (experience r) (salary r)
        (description r) (apply_url r) (source r).
Proof. by destruct r. Qed.

#[local] Arguments first_match : simpl never.
#[local] Arguments get_fallback_job_url : simpl never.
#[local] Arguments get_text_strip : simpl never.
#[local] Arguments Text.take : simpl never.
#[local] Arguments String.append : simpl never.

Section Frames.

Context {A : Type} (p : JobRecord → A).
Implicit Types (set : string → JobRecord → JobRecord) (card : Card) (j : JobRecord).

(** A stage leaves alone the fields that its assignments leave alone. *)
Lemma extract_field_frame set card selectors j :
  (∀ v j, p (set v j) = p j) → p (extract_field set card selectors j) = p j.
Proof. intros H. unfold extract_field. by destruct (first_match _ _). Qed.

Lemma extract_description_frame card selectors j :
  (∀ v j, p (set_description v j) = p j) →
  p (extract_description card selectors j) = p j.
Proof. intros H. unfold extract_description. by destruct (first_match _ _). Qed.

Lemma default_field_frame get set v j :
  (∀ v j, p (set v j) = p j) → p (default_field get set v j) = p j.
Proof. intros H. unfold default_field. by destruct (negb _). Qed.

Lemma TimesJobs_extract_title_frame card j :
  (∀ v j, p (set_title v j) = p j) → (∀ v j, p (set_apply_url v j) = p j) →
  p (TimesJobs.extract_title card j) = p j.
Proof.
  intros H1 H2. unfold TimesJobs.extract_title.
  destruct (first_match _ _); [|done]. simpl.
  destruct (href_truthy _); by rewrite ?H2, ?H1.
Qed.

Lemma TimesJobs_ensure_apply_url_frame j :
  (∀ v j, p (set_apply_url v j) = p j) → p (TimesJobs.ensure_apply_url j) = p j.
Proof. intros H. unfold TimesJobs.ensure_apply_url. by case_decide. Qed.

Lemma Indeed_extract_title_frame card j :
  (∀ v j, p (set_title v j) = p j) → (∀ v j, p (set_apply_url v j) = p j) →
  p (Indeed.extract_title card j) = p j.
Proof.
  intros H1 H2. unfold Indeed.extract_title.
  destruct (first_match _ _); [|done]. simpl.
  destruct (href_truthy _); by rewrite ?H2, ?H1.
Qed.

Lemma Apna_take_link_frame h j j' :
  (∀ v j, p (set_apply_url v j) = p j) → Apna.take_link h j = Some j' → p j' = p j.
Proof.
  intros H. unfold Apna.take_link. destruct h as [h|]; [|done].
  destruct (_ && _); [|done]. intros [= <-]. apply H.
Qed.

Lemma Apna_extract_title_frame card j :
  (∀ v j, p (set_title v j) = p j) → (∀ v j, p (set_apply_url v j) = p j) →
  p (Apna.extract_title card j) = p j.
Proof.
  intros H1 H2. unfold Apna.extract_title.
  destruct (first_match _ _); [|done]. simpl.
  destruct (Apna.take_link _ _) eqn:Hl; simpl; [|apply H1].
  by rewrite (Apna_take_link_frame _ _ _ H2 Hl), H1.
Qed.

Lemma Apna_extract_text_title_frame card j :
  (∀ v j, p (set_title v j) = p j) → p (Apna.extract_text_title card j) = p j.
Proof.
  intros H. unfold Apna.extract_text_title.
  destruct (negb _); [|done]. by apply extract_field_frame.
Qed.

Lemma Apna_first_valid_link_frame links j :
  (∀ v j, p (set_apply_url v j) = p j) → p (Apna.first_valid_link links j) = p j.
Proof.
  intros H. induction links as [|link links IH]; simpl; [done|].
  destruct (Apna.take_link _ _) eqn:Hl; [|done].
  by apply (Apna_take_link_frame _ _ _ H Hl).
Qed.

Lemma Apna_extract_any_link_frame card j :
  (∀ v j, p (set_apply_url v j) = p j) → p (Apna.extract_any_link card j) = p j.
Proof.
  intros H. unfold Apna.extract_any_link. case_decide; [|done].
  by apply Apna_first_valid_link_frame.
Qed.

Lemma Apna_ensure_apply_url_frame j :
  (∀ v j, p (set_apply_url v j) = p j) → p (Apna.ensure_apply_url j) = p j.
Proof. intros H. unfold Apna.ensure_apply_url. by destruct (_ || _). Qed.

(** A stage that assigns a field sets it to the text it finds. *)
Lemma extract_field_own (q : JobRecord → string) set card selectors j :
  (∀ v j, q (set v j) = v) →
  q (extract_field set card selectors j)
  = match first_match card selectors with
    | Some e => get_text_strip e
    | None => q j
    end.
Proof. intros H. unfold extract_field. by destruct (first_match _ _). Qed.

Lemma default_field_own (q : JobRecord → string) set v j :
  (∀ v j, q (set v j) = v) → q (default_field q set v j) = str_or (q j) v.
Proof.
  intros H. unfold default_field, str_or.
  destruct (Text.truthy (q j)); simpl; [done|apply H].
Qed.

End Frames.

Lemma extract_description_own card selectors j :
  description (extract_description card selectors j)
  = match first_match card selectors with
    | Some e => Some (Text.take 200 (get_text_strip e) +:+ "...")
    | None => description j
    end.
Proof. unfold extract_description. by destruct (first_match _ _). Qed.

Section StageFields.

Implicit Types (card : Card) (j r : JobRecord) (s : string).

Lemma TimesJobs_resolve_not_placeholder h : TimesJobs.resolve h ≠ "#".
Proof.
  unfold TimesJobs.resolve.
  destruct (Text.startswith h "/") eqn:H1; [discriminate|].
  destruct (Text.startswith h "http") eqn:H2; [|discriminate].
  intros ->. discriminate.
Qed.

Lemma TimesJobs_extract_title_title card j :
  title (TimesJobs.extract_title card j)
  = match first_match card TimesJobs.title_selectors with
    | Some e => get_text_strip e
    | None => title j
    end.
Proof.
  unfold TimesJobs.extract_title. destruct (first_match _ _); [|done].
  simpl. by destruct (href_truthy _).
Qed.

Lemma TimesJobs_extract_title_apply_url card j :
  apply_url (TimesJobs.extract_title card j)
  = match first_match card TimesJobs.title_selectors with
    | Some e =>
        if href_truthy (href e) then TimesJobs.resolve (default "" (href e))
        else apply_url j
    | None => apply_url j
    end.
Proof.
  unfold TimesJobs.extract_title. destruct (first_match _ _); [|done].
  simpl. by destruct (href_truthy _).
Qed.

Lemma TimesJobs_ensure_apply_url_own j :
  apply_url (TimesJobs.ensure_apply_url j)
  = if decide (apply_url j = "#")
    then get_fallback_job_url (title j) (company j) "TimesJobs"
    else apply_url j.
Proof. unfold TimesJobs.ensure_apply_url. by case_decide. Qed.

Lemma Indeed_extract_title_title card j :
  title (Indeed.extract_title card j)
  = match first_match card Indeed.title_selectors with
    | Some e => get_text_strip e
    | None => title j
    end.
Proof.
  unfold Indeed.extract_title. destruct (first_match _ _); [|done].
  simpl. by destruct (href_truthy _).
Qed.

Lemma Indeed_extract_title_apply_url card j :
  apply_url (Indeed.extract_title card j)
  = match first_match card Indeed.title_selectors with
    | Some e =>
        if href_truthy (href e) then Indeed.resolve (default "" (href e))
        else apply_url j
    | None => apply_url j
    end.
Proof.
  unfold Indeed.extract_title. destruct (first_match _ _); [|done].
  simpl. by destruct (href_truthy _).
Qed.

Lemma Apna_extract_title_title card j :
  title (Apna.extract_title card j)
  = match first_match card Apna.title_selectors with
    | Some e => get_text_strip e
    | None => title j
    end.
Proof.
  unfold Apna.extract_title. destruct (first_match _ _) as [e|]; [|done].
  simpl. destruct (Apna.take_link _ _) eqn:Hl; simpl; [|done].
  by rewrite (Apna_take_link_frame title _ _ _ (λ _ _, eq_refl) Hl).
Qed.

Lemma truthy_false s : Text.truthy s = false ↔ s = "".
Proof. by destruct s. Qed.

Lemma truthy_true s : Text.truthy s = true ↔ s ≠ "".
Proof. by destruct s. Qed.

(** The title the Apna parser ends with: the text of the linked title,
    and the text-only title when that one is empty. *)
Lemma Apna_title card :
  title (Apna.extract_text_title card
           (Apna.extract_title card (initial_job_data "Apna.co")))
  = if Text.truthy (get_text card Apna.title_selectors)
    then get_text card Apna.title_selectors
    else get_text card Apna.title_text_selectors.
Proof.
  unfold Apna.extract_text_title. rewrite Apna_extract_title_title. simpl.
  fold (get_text card Apna.title_selectors).
  destruct (Text.truthy (get_text card Apna.title_selectors)) eqn:Ht; simpl.
  - rewrite Apna_extract_title_title. reflexivity.
  - rewrite (extract_field_own title) by reflexivity.
    rewrite Apna_extract_title_title. simpl.
    fold (get_text card Apna.title_selectors).
    apply truthy_false in Ht. rewrite Ht. reflexivity.
Qed.

End StageFields.

(** The fields of a chain of stages, stage by stage. *)
Ltac frame_of p :=
  first
    [ rewrite (extract_field_frame p) by reflexivity
    | rewrite (extract_description_frame p) by reflexivity
    | rewrite (default_field_frame p) by reflexivity
    | rewrite (TimesJobs_extract_title_frame p) by reflexivity
    | rewrite (TimesJobs_ensure_apply_url_frame p) by reflexivity
    | rewrite (Indeed_extract_title_frame p) by reflexivity
    | rewrite (Apna_extract_title_frame p) by reflexivity
    | rewrite (Apna_extract_text_title_frame p) by reflexivity
    | rewrite (Apna_extract_any_link_frame p) by reflexivity
    | rewrite (Apna_ensure_apply_url_frame p) by reflexivity ].

Ltac fields :=
  repeat first
    [ frame_of title | frame_of company | frame_of location | frame_of experience
    | frame_of salary | frame_of description | frame_of apply_url | frame_of source
    | rewrite TimesJobs_extract_title_title
    | rewrite TimesJobs_extract_title_apply_url
    | rewrite TimesJobs_ensure_apply_url_own
    | rewrite Indeed_extract_title_title
    | rewrite Indeed_extract_title_apply_url
    | rewrite Apna_title
    | rewrite Apna_extract_title_title
    | rewrite extract_description_own
    | rewrite (extract_field_own title) by reflexivity
    | rewrite (extract_field_own company) by reflexivity
    | rewrite (extract_field_own location) by reflexivity
    | rewrite (extract_field_own experience) by reflexivity
    | rewrite (extract_field_own salary) by reflexivity
    | rewrite (default_field_own company) by reflexivity
    | rewrite (default_field_own location) by reflexivity
    | rewrite (default_field_own experience) by reflexivity ].

Section TimesJobsNormalForm.

Implicit Types (card : Card) (j r : JobRecord).

(** The TimesJobs parser in one piece. *)
Lemma parse_timesjobs_job_card_eq card :
  parse_timesjobs_job_card card
  = let title := get_text card TimesJobs.title_selectors in
    let company := get_text card TimesJobs.company_selectors in
    if Text.truthy title && Text.truthy company then
      Some {| title := title;
              company := company;
              location := str_or (get_text card TimesJobs.location_selectors) "India";
              experience :=
                str_or (get_text card TimesJobs.exp_selectors) "As per requirement";
              salary :=
                match first_match card TimesJobs.salary_selectors with
                | Some e => get_text_strip e
                | None => "Not disclosed"
                end;
              description :=
                match first_match card TimesJobs.desc_selectors with
                | Some e => Some (Text.take 200 (get_text_strip e) +:+ "...")
                | None => Some ""
                end;
              apply_url :=
                match first_match card TimesJobs.title_selectors with
                | Some title_elem =>
                    if href_truthy (href title_elem)
                    then TimesJobs.resolve (default "" (href title_elem))
                    else get_fallback_job_url title company "TimesJobs"
                | None => get_fallback_job_url title company "TimesJobs"
                end;
              source := "TimesJobs" |}
    else None.
Proof.
  unfold parse_timesjobs_job_card. cbv zeta. fields. simpl.
  fold (get_text card TimesJobs.title_selectors).
  fold (get_text card TimesJobs.company_selectors).
  destruct (_ && _); [|done]. f_equal.
  match goal with |- ?x = _ => rewrite (JobRecord_eta x) end.
  fields. simpl. unfold get_text. f_equal.
  destruct (first_match card TimesJobs.title_selectors) as [e|]; simpl; [|done].
  destruct (href_truthy (href e)); [|done].
  case_decide as H; [|done]. by apply TimesJobs_resolve_not_placeholder in H.
Qed.

End TimesJobsNormalForm.

Section OtherParsers.

Implicit Types (card : Card) (j r : JobRecord) (s : string).

Lemma str_or_truthy a b : Text.truthy b = true → Text.truthy (str_or a b) = true.
Proof. unfold str_or. by destruct (Text.truthy a) eqn:Ha. Qed.

(** Text nodes of blanks only give the empty text. *)
Lemma get_text_strip_blank e :
  Forall (λ s, Text.strip s = "") (strings e) → get_text_strip e = "".
Proof.
  unfold get_text_strip. induction 1 as [|s l Hs _ IH]; simpl; [done|].
  by rewrite Hs.
Qed.

Lemma get_fallback_job_url_not_placeholder job_title company source :
  get_fallback_job_url job_title company source ≠ "#".
Proof.
  unfold get_fallback_job_url. intros H.
  repeat case_decide; cbv -[Text.replace] in H; discriminate.
Qed.

Lemma get_fallback_job_url_absolute job_title company source :
  is_absolute_url (get_fallback_job_url job_title company source) = true.
Proof. unfold get_fallback_job_url. repeat case_decide; reflexivity. Qed.

(** The Indeed parser in one piece. *)
Lemma parse_indeed_job_card_eq card :
  parse_indeed_job_card card
  = let title := get_text card Indeed.title_selectors in
    let company := get_text card Indeed.company_selectors in
    if Text.truthy title && Text.truthy company then
      Some {| title := title;
              company := company;
              location := str_or (get_text card Indeed.location_selectors) "Remote";
              experience := "Not specified";
              salary :=
                match first_match card Indeed.salary_selectors with
                | Some e => get_text_strip e
                | None => "Not disclosed"
                end;
              description :=
                match first_match card Indeed.desc_selectors with
                | Some e => Some (Text.take 200 (get_text_strip e) +:+ "...")
                | None => Some ""
                end;
              apply_url :=
                match first_match card Indeed.title_selectors with
                | Some title_elem =>
                    if href_truthy (href title_elem)
                    then Indeed.resolve (default "" (href title_elem))
                    else "#"
                | None => "#"
                end;
              source := "Indeed" |}
    else None.
Proof.
  unfold parse_indeed_job_card. cbv zeta. fields. simpl.
  fold (get_text card Indeed.title_selectors).
  fold (get_text card Indeed.company_selectors).
  destruct (_ && _); [|done]. f_equal.
  match goal with |- ?x = _ => rewrite (JobRecord_eta x) end.
  fields. simpl. unfold get_text. reflexivity.
Qed.

Lemma Apna_ensure_apply_url_spec j :
  let r := Apna.ensure_apply_url j in
  apply_url r ≠ "#"
  ∧ (is_valid_job_url (apply_url r) = true
     ∨ apply_url r = get_fallback_job_url (title r) (company r) "Apna.co").
Proof.
  unfold Apna.ensure_apply_url. destruct (_ || _) eqn:Hc; simpl.
  - split; [apply get_fallback_job_url_not_placeholder | by right].
  - apply orb_false_elim in Hc as [Hc1 Hc2].
    apply bool_decide_eq_false in Hc1. apply negb_false_iff in Hc2. by split; [|left].
Qed.

(** What the Apna parser returns, field by field. *)
Lemma parse_apna_job_card_Some card r :
  parse_apna_job_card card = Some r →
  let t := if Text.truthy (get_text card Apna.title_selectors)
           then get_text card Apna.title_selectors
           else get_text card Apna.title_text_selectors in
  Text.truthy t = true
  ∧ title r = t
  ∧ company r = str_or (get_text card Apna.company_selectors) "Various Companies"
  ∧ location r = str_or (get_text card Apna.location_selectors) "India"
  ∧ experience r = "As per requirement"
  ∧ salary r = match first_match card Apna.salary_selectors with
               | Some e => get_text_strip e
               | None => "Not disclosed"
               end
  ∧ description r = match first_match card Apna.desc_selectors with
                    | Some e => Some (Text.take 200 (get_text_strip e) +:+ "...")
                    | None => Some ""
                    end
  ∧ source r = "Apna.co"
  ∧ apply_url r ≠ "#"
  ∧ (is_valid_job_url (apply_url r) = true
     ∨ apply_url r = get_fallback_job_url (title r) (company r) "Apna.co").
Proof.
  unfold parse_apna_job_card. cbv zeta. fields.
  set (t := if Text.truthy (get_text card Apna.title_selectors) then _ else _).
  destruct (Text.truthy t) eqn:Ht; [|done].
  intros [= <-].
  match goal with
  | |- context [Apna.ensure_apply_url ?j] =>
      destruct (Apna_ensure_apply_url_spec j) as [Hu1 Hu2]
  end.
  split_and!; [done | fields; simpl; reflexivity .. | exact Hu1 | exact Hu2].
Qed.

Lemma parse_apna_job_card_None card :
  parse_apna_job_card card = None
  ↔ get_text card Apna.title_selectors = ""
    ∧ get_text card Apna.title_text_selectors = "".
Proof.
  unfold parse_apna_job_card. cbv zeta. fields.
  destruct (Text.truthy (get_text card Apna.title_selectors)) eqn:H1.
  - rewrite H1. split; [done|]. intros [H _]. apply truthy_false in H. congruence.
  - apply truthy_false in H1. rewrite H1.
    destruct (Text.truthy (get_text card Apna.title_text_selectors)) eqn:H2.
    + split; [done|]. intros [_ H]. apply truthy_false in H. congruence.
    + by apply truthy_false in H2.
Qed.

End OtherParsers.

(** ** The extractors *)

Section Extractors.

Implicit Types (card : Card) (r job : JobRecord) (fetch : Fetch).

Lemma parse_timesjobs_job_card_source card r :
  parse_timesjobs_job_card card = Some r → source r = "TimesJobs".
Proof.
  rewrite parse_timesjobs_job_card_eq. cbv zeta.
  destruct (_ && _); [|done]. by intros [= <-].
Qed.

Lemma parse_linkedin_job_source card r :
  parse_linkedin_job card = Some r → source r = "LinkedIn".
Proof. by intros [= <-]. Qed.

Lemma scrape_Forall (P : JobRecord → Prop) parse limit status_code job_cards :
  (∀ card r, parse card = Some r → P r) →
  Forall P (scrape parse limit status_code job_cards).
Proof.
  intros Hparse. unfold scrape. case_decide; [|constructor].
  apply Forall_forall. intros r (card & _ & Hr)%list_elem_of_omap. eauto.
Qed.

Lemma get_sample_timesjobs_source job_title location :
  Forall (λ job, source job = "TimesJobs") (get_sample_timesjobs job_title location).
Proof. unfold get_sample_timesjobs. apply Forall_fmap, Forall_forall. done. Qed.

Lemma get_sample_linkedin_jobs_source job_title :
  Forall (λ job, source job = "LinkedIn") (get_sample_linkedin_jobs job_title).
Proof. unfold get_sample_linkedin_jobs. apply Forall_fmap, Forall_forall. done. Qed.

Lemma get_sample_apna_jobs_source job_title location :
  Forall (λ job, source job = "Apna.co") (get_sample_apna_jobs job_title location).
Proof. unfold get_sample_apna_jobs. apply Forall_fmap, Forall_forall. done. Qed.

Lemma search_timesjobs_source job_title location fetch :
  Forall (λ job, source job = "TimesJobs") (search_timesjobs job_title location fetch).
Proof.
  destruct fetch as [msg|status_code job_cards]; simpl.
  - apply get_sample_timesjobs_source.
  - pose proof (scrape_Forall (λ job, source job = "TimesJobs")
                  parse_timesjobs_job_card 8 status_code job_cards
                  parse_timesjobs_job_card_source) as H.
    destruct (scrape _ _ _ _); [apply get_sample_timesjobs_source | exact H].
Qed.

Lemma search_linkedin_source job_title location fetch :
  Forall (λ job, source job = "LinkedIn") (search_linkedin job_title location fetch).
Proof.
  destruct fetch as [msg|status_code job_cards]; simpl.
  - apply get_sample_linkedin_jobs_source.
  - apply scrape_Forall, parse_linkedin_job_source.
Qed.

(** The TimesJobs extractor never comes back empty-handed. *)
Lemma search_timesjobs_nonempty job_title location fetch :
  search_timesjobs job_title location fetch ≠ [].
Proof.
  destruct fetch as [msg|status_code job_cards]; simpl; [done|].
  by destruct (scrape _ _ _ _).
Qed.

Lemma search_apna_nonempty job_title location fetch :
  search_apna job_title location fetch ≠ [].
Proof.
  destruct fetch as [msg|status_code job_cards]; simpl; [done|].
  by destruct (scrape _ _ _ _).
Qed.

(** Whatever the network does, [search_jobs] deduplicates records of the
    two sources it queries. *)
Lemma collect_jobs_known_source job_title location w :
  Forall known_source (collect_jobs job_title location w).
Proof.
  unfold collect_jobs. cbv zeta.
  assert (Forall known_source
            (search_timesjobs job_title location (timesjobs_fetch w) ++
             search_linkedin job_title location (linkedin_fetch w))) as Hall.
  { apply Forall_app. split.
    - eapply Forall_impl; [apply search_timesjobs_source|]. by left.
    - eapply Forall_impl; [apply search_linkedin_source|]. by right. }
  case_decide; [|done]. apply Forall_app. split; [done|].
  apply Forall_take. eapply Forall_impl; [apply get_sample_timesjobs_source|].
  by left.
Qed.

Lemma remove_duplicates_Forall (P : JobRecord → Prop) jobs :
  Forall P jobs → Forall P (remove_duplicates jobs).
Proof.
  rewrite !Forall_forall. intros H job Hin. apply H.
  eapply elem_of_sublist; [exact Hin|apply remove_duplicates_sublist].
Qed.

(** On records of the two sources, interleaving keeps every source's
    sub-sequence as it is. *)
Lemma mix_sources_from_source unique_jobs S :
  Forall known_source unique_jobs →
  from_source S (mix_sources unique_jobs) = from_source S unique_jobs.
Proof.
  intros Hknown. unfold mix_sources, from_source.
  destruct (decide (S = "LinkedIn")) as [->|HS].
  - rewrite filter_alternate_r.
    + apply filter_filter_implied. eapply Forall_impl; [exact Hknown|].
      intros job _ Hs%bool_decide_eq_true. unfold is_linkedin. by rewrite Hs.
    + apply Forall_forall. intros job [_ Ht]%list_elem_of_In%filter_In.
      apply bool_decide_eq_false. intros Hs. unfold is_timesjobs in Ht.
      rewrite Hs in Ht. discriminate.
  - rewrite filter_alternate_l.
    + apply filter_filter_implied. eapply Forall_impl; [exact Hknown|].
      intros job [Hk|Hk] Hs%bool_decide_eq_true; [|congruence].
      unfold is_timesjobs. by rewrite Hk.
    + apply Forall_forall.
      intros job [Hin Hl]%list_elem_of_In%filter_In. apply bool_decide_eq_false.
      intros Hs. apply list_elem_of_In in Hin.
      rewrite Forall_forall in Hknown. destruct (Hknown job Hin) as [Hk|Hk].
      * unfold is_linkedin in Hl. rewrite Hk in Hl. discriminate.
      * congruence.
Qed.

End Extractors.

(** C2. The interleaver is a round-robin merge of the two per-source
    sub-sequences of the deduplicated records, TimesJobs before LinkedIn in
    every round: round [i] emits the [i]-th TimesJobs record and then the
    [i]-th LinkedIn record, each when there is one, and the rounds go on until
    both sub-sequences are used up, so that every record of both is emitted.
    For [a1,a2,a3] before [b1,b2] the result is [a1,b1,a2,b2,a3]. *)
Theorem mix_sources_round_robin (unique_jobs : list JobRecord) :
  let timesjobs_jobs := List.filter is_timesjobs unique_jobs in
  let linkedin_jobs := List.filter is_linkedin unique_jobs in
  mix_sources unique_jobs = round_robin [timesjobs_jobs; linkedin_jobs]
  ∧ length (mix_sources unique_jobs) = length timesjobs_jobs + length linkedin_jobs
  ∧ (∀ A B, alternate A B = round_robin [A; B]
            ∧ length (alternate A B) = length A + length B)
  ∧ (∀ a1 a2 a3 b1 b2,
       alternate [a1; a2; a3] [b1; b2] = [a1; b1; a2; b2; a3]).
Proof.
  cbv zeta. unfold mix_sources. split_and!.
  - apply alternate_round_robin.
  - apply alternate_length.
  - intros A B. split; [apply alternate_round_robin | apply alternate_length].
  - reflexivity.
Qed.

(** C3. Whatever the two extractors return, for every source [S] the records
    of [S] in the result of [search_jobs] are the records of [S] among the
    deduplicated records, in the same order: interleaving neither reorders,
    drops nor duplicates the records of a source. *)
Theorem search_jobs_preserves_source_order
    (job_title location : string) (w : World) (S : string) :
  from_source S (search_jobs job_title location w)
  = from_source S (remove_duplicates (collect_jobs job_title location w)).
Proof.
  unfold search_jobs. cbv zeta. apply mix_sources_from_source.
  apply remove_duplicates_Forall, collect_jobs_known_source.
Qed.

(** ** The normalizer's rules, parser by parser *)

Section Normalizer.

Implicit Types (site : Site) (card : Card) (r : JobRecord).

Lemma str_or_empty a b : str_or a b = "" → a = "" ∧ b = "".
Proof.
  unfold str_or. destruct (Text.truthy a) eqn:Ha.
  - intros ->. discriminate.
  - by apply truthy_false in Ha.
Qed.

Lemma parse_timesjobs_job_card_Some card r :
  parse_timesjobs_job_card card = Some r →
  Text.truthy (title r) = true ∧ Text.truthy (company r) = true
  ∧ r = {| title := get_text card TimesJobs.title_selectors;
           company := get_text card TimesJobs.company_selectors;
           location := str_or (get_text card TimesJobs.location_selectors) "India";
           experience :=
             str_or (get_text card TimesJobs.exp_selectors) "As per requirement";
           salary :=
             match first_match card TimesJobs.salary_selectors with
             | Some e => get_text_strip e
             | None => "Not disclosed"
             end;
           description :=
             match first_match card TimesJobs.desc_selectors with
             | Some e => Some (Text.take 200 (get_text_strip e) +:+ "...")
             | None => Some ""
             end;
           apply_url :=
             match title_link card TimesJobs.title_selectors with
             | Some h => TimesJobs.resolve h
             | None =>
                 get_fallback_job_url (get_text card TimesJobs.title_selectors)
                   (get_text card TimesJobs.company_selectors) "TimesJobs"
             end;
           source := "TimesJobs" |}.
Proof.
  rewrite parse_timesjobs_job_card_eq. cbv zeta.
  destruct (_ && _) eqn:Hc; [|done]. apply andb_prop in Hc as [Ht Hc].
  intros [= <-]. simpl. split_and!; [done..|]. f_equal.
  unfold title_link. destruct (first_match card TimesJobs.title_selectors) as [e|]; [|done].
  destruct (href e) as [h|]; simpl; [|done]. by destruct (Text.truthy h).
Qed.

Lemma parse_indeed_job_card_Some card r :
  parse_indeed_job_card card = Some r →
  Text.truthy (title r) = true ∧ Text.truthy (company r) = true
  ∧ r = {| title := get_text card Indeed.title_selectors;
           company := get_text card Indeed.company_selectors;
           location := str_or (get_text card Indeed.location_selectors) "Remote";
           experience := "Not specified";
           salary :=
             match first_match card Indeed.salary_selectors with
             | Some e => get_text_strip e
             | None => "Not disclosed"
             end;
           description :=
             match first_match card Indeed.desc_selectors with
             | Some e => Some (Text.take 200 (get_text_strip e) +:+ "...")
             | None => Some ""
             end;
           apply_url :=
             match title_link card Indeed.title_selectors with
             | Some h => Indeed.resolve h
             | None => "#"
             end;
           source := "Indeed" |}.
Proof.
  rewrite parse_indeed_job_card_eq. cbv zeta.
  destruct (_ && _) eqn:Hc; [|done]. apply andb_prop in Hc as [Ht Hc].
  intros [= <-]. simpl. split_and!; [done..|]. f_equal.
  unfold title_link. destruct (first_match card Indeed.title_selectors) as [e|]; [|done].
  destruct (href e) as [h|]; simpl; [|done]. by destruct (Text.truthy h).
Qed.

Lemma TimesJobs_resolve_http h : Text.startswith (TimesJobs.resolve h) "http" = true.
Proof.
  unfold TimesJobs.resolve.
  destruct (Text.startswith h "/"); [reflexivity|].
  by destruct (Text.startswith h "http") eqn:H.
Qed.

End Normalizer.

(** C4, as the code has it.  A candidate whose title is empty after trimming
    is rejected by the Apna, TimesJobs and Indeed parsers, which produce no
    record; the LinkedIn parser accepts it under the substituted title
    ['Software Developer'].  No parser returns a record with an empty title,
    and but for that substitution the title is the candidate's. *)
Theorem parse_card_title_rule (site : Site) (card : Card) :
  (candidate_title site card = "" →
   match site with
   | LinkedInSite =>
       ∃ r, parse_card site card = Some r ∧ title r = "Software Developer"
   | _ => parse_card site card = None
   end)
  ∧ (∀ r, parse_card site card = Some r →
       title r ≠ ""
       ∧ title r = str_or (candidate_title site card) "Software Developer").
Proof.
  split.
  - intros Hempty. destruct site; simpl in *.
    + apply str_or_empty in Hempty as [H1 H2]. by apply parse_apna_job_card_None.
    + rewrite parse_timesjobs_job_card_eq. cbv zeta. by rewrite Hempty.
    + rewrite parse_indeed_job_card_eq. cbv zeta. by rewrite Hempty.
    + eexists. split; [reflexivity|]. simpl. by rewrite Hempty.
  - intros r Hr. destruct site; simpl in *.
    + apply parse_apna_job_card_Some in Hr as (Ht & -> & _).
      split; [by apply truthy_true|]. unfold str_or. by rewrite Ht.
    + apply parse_timesjobs_job_card_Some in Hr as (Ht & _ & ->). simpl in *.
      split; [by apply truthy_true|]. unfold str_or. by rewrite Ht.
    + apply parse_indeed_job_card_Some in Hr as (Ht & _ & ->). simpl in *.
      split; [by apply truthy_true|]. unfold str_or. by rewrite Ht.
    + injection Hr as <-. simpl. split; [|done].
      apply truthy_true, str_or_truthy. reflexivity.
Qed.

(** The TimesJobs parser rejects a card whose title is made of blanks. *)
Lemma parse_card_title_rule_witness :
  candidate_title TimesJobsSite timesjobs_card_blank_title = ""
  ∧ parse_card TimesJobsSite timesjobs_card_blank_title = None.
Proof.
  split; [reflexivity|].
  apply (proj1 (parse_card_title_rule TimesJobsSite timesjobs_card_blank_title)).
  reflexivity.
Defined.

(** C4 fails on the LinkedIn parser: a card without a title gives a record,
    under a title that the card does not have. *)
Lemma linkedin_substitutes_empty_title :
  candidate_title LinkedInSite empty_card = ""
  ∧ parse_card LinkedInSite empty_card
    = Some {| title := "Software Developer"; company := "Tech Company";
              location := "Remote"; experience := "Not specified";
              salary := "Not disclosed"; description := None;
              apply_url := "#"; source := "LinkedIn" |}.
Proof. split; reflexivity. Qed.

(** C5, as the code has it.  The defaults depend on the parser.  In a record
    that a parser returns, an absent or empty company becomes ['Various
    Companies'] with Apna and ['Tech Company'] with LinkedIn, while TimesJobs
    and Indeed return no record without a company; an absent or empty location
    becomes ['India'] with Apna and TimesJobs and ['Remote'] with Indeed and
    LinkedIn; an absent or empty experience becomes ['As per requirement'] with
    Apna and TimesJobs and ['Not specified'] with Indeed and LinkedIn; and the
    salary is ['Not disclosed'] when the card has no salary element. *)
Theorem parse_card_defaults (site : Site) (card : Card) (r : JobRecord) :
  parse_card site card = Some r →
  match site with
  | ApnaSite =>
      company r = str_or (get_text card (company_selectors site)) "Various Companies"
  | LinkedInSite =>
      company r = str_or (get_text card (company_selectors site)) "Tech Company"
  | TimesJobsSite | IndeedSite =>
      company r = get_text card (company_selectors site) ∧ company r ≠ ""
  end
  ∧ location r = str_or (get_text card (location_selectors site)) (location_default site)
  ∧ experience r
    = str_or (get_text card (experience_selectors site)) (experience_default site)
  ∧ (first_match card (salary_selectors site) = None → salary r = "Not disclosed").
Proof.
  intros Hr. destruct site; simpl in *.
  - apply parse_apna_job_card_Some in Hr as (_ & _ & -> & -> & -> & -> & _).
    split_and!; try done. by intros ->.
  - apply parse_timesjobs_job_card_Some in Hr as (_ & Hc & ->). simpl in *.
    split_and!; try done; [by apply truthy_true | by intros ->].
  - apply parse_indeed_job_card_Some in Hr as (_ & Hc & ->). simpl in *.
    split_and!; try done; [by apply truthy_true | by intros ->].
  - by injection Hr as <-.
Qed.

(** The Apna parser fills in the company, the location and the experience of
    a card that has only a title. *)
Lemma parse_card_defaults_witness :
  ∃ r, parse_card ApnaSite apna_card = Some r
       ∧ company r = "Various Companies"
       ∧ location r = "India"
       ∧ experience r = "As per requirement"
       ∧ salary r = "Not disclosed".
Proof.
  eexists. split; [reflexivity|].
  destruct (parse_card_defaults ApnaSite apna_card _ eq_refl) as (Hc & Hl & He & Hs).
  split_and!; [exact Hc | exact Hl | exact He | exact (Hs eq_refl)].
Defined.

(** C5 fails on the LinkedIn parser, whose defaults are its own. *)
Lemma linkedin_defaults_differ :
  ∃ r, parse_card LinkedInSite empty_card = Some r
       ∧ get_text empty_card (company_selectors LinkedInSite) = ""
       ∧ company r = "Tech Company"
       ∧ location r = "Remote"
       ∧ experience r = "Not specified".
Proof. eexists. split_and!; reflexivity. Qed.

(** C6, as the code has it.  When a parser that reads the description finds
    a description element, the description is the first 200 characters of its
    text followed by ["..."], whatever the length of the text; when it finds
    none, the description stays empty.  The LinkedIn parser's records have no
    description. *)
Theorem parse_card_description (site : Site) (card : Card) (r : JobRecord) :
  parse_card site card = Some r →
  description r
  = match site with
    | LinkedInSite => None
    | _ =>
        match first_match card (desc_selectors site) with
        | Some e => Some (Text.take 200 (get_text_strip e) +:+ "...")
        | None => Some ""
        end
    end.
Proof.
  intros Hr. destruct site; simpl in *.
  - by apply parse_apna_job_card_Some in Hr as (_ & _ & _ & _ & _ & _ & -> & _).
  - by apply parse_timesjobs_job_card_Some in Hr as (_ & _ & ->).
  - by apply parse_indeed_job_card_Some in Hr as (_ & _ & ->).
  - by injection Hr as <-.
Qed.

(** A TimesJobs card with a description of nine characters. *)
Lemma parse_card_description_witness :
  ∃ r, parse_card TimesJobsSite timesjobs_card = Some r
       ∧ description r = Some "Good role...".
Proof.
  eexists. split; [reflexivity|].
  exact (parse_card_description TimesJobsSite timesjobs_card _ eq_refl).
Defined.

(** C6 fails on a short description: nine characters, well under the bound,
    and the ellipsis is appended all the same. *)
Lemma short_description_gets_ellipsis :
  ∃ r, parse_card TimesJobsSite timesjobs_card = Some r
       ∧ get_text timesjobs_card (desc_selectors TimesJobsSite) = "Good role"
       ∧ String.length "Good role" ≤ 200
       ∧ description r = Some "Good role..."
       ∧ description r ≠ Some "Good role".
Proof.
  eexists. split_and!; [reflexivity | reflexivity | simpl; lia | reflexivity | discriminate].
Qed.

(** C7, as the code has it.  The Apna parser never returns the placeholder
    ["#"]: the URL it returns passes the job-URL heuristic or is the fallback
    search URL of the title and the company.  The TimesJobs parser never
    returns the placeholder either: it returns the title's link resolved
    against the site, without consulting the heuristic, and the fallback
    search URL when the title has no link; what it returns begins with
    ["http"].  The Indeed and LinkedIn parsers consult neither the heuristic
    nor the fallback: they return the link, resolved against the site when it
    begins with ["/"], and the placeholder when there is no link.  Resolving
    prefixes the site's origin to a link that begins with ["/"]. *)
Theorem parse_card_apply_url (site : Site) (card : Card) :
  (∀ r, parse_card site card = Some r →
     match site with
     | ApnaSite =>
         apply_url r ≠ "#"
         ∧ (is_valid_job_url (apply_url r) = true
            ∨ apply_url r = get_fallback_job_url (title r) (company r) "Apna.co")
     | TimesJobsSite =>
         apply_url r ≠ "#"
         ∧ Text.startswith (apply_url r) "http" = true
         ∧ apply_url r
           = match title_link card TimesJobs.title_selectors with
             | Some h => TimesJobs.resolve h
             | None => get_fallback_job_url (title r) (company r) "TimesJobs"
             end
     | IndeedSite =>
         apply_url r
         = match title_link card Indeed.title_selectors with
           | Some h => Indeed.resolve h
           | None => "#"
           end
     | LinkedInSite => apply_url r = LinkedIn.resolve (LinkedIn.job_link card)
     end)
  ∧ (∀ h, Text.startswith h "/" = true →
       Apna.resolve h = "https://apna.co" +:+ h
       ∧ TimesJobs.resolve h = "https://www.timesjobs.com" +:+ h
       ∧ Indeed.resolve h = "https://www.indeed.com" +:+ h
       ∧ LinkedIn.resolve h = "https://www.linkedin.com" +:+ h).
Proof.
  split.
  - intros r Hr. destruct site; simpl in *.
    + by apply parse_apna_job_card_Some in Hr as (_ & _ & _ & _ & _ & _ & _ & _ & ? & ?).
    + apply parse_timesjobs_job_card_Some in Hr as (_ & _ & ->). simpl.
      destruct (title_link card TimesJobs.title_selectors) as [h|].
      * split_and!; [apply TimesJobs_resolve_not_placeholder
                    | apply TimesJobs_resolve_http | done].
      * split_and!; [apply get_fallback_job_url_not_placeholder | reflexivity | done].
    + by apply parse_indeed_job_card_Some in Hr as (_ & _ & ->).
    + by injection Hr as <-.
  - intros h Hh.
    unfold Apna.resolve, TimesJobs.resolve, Indeed.resolve, LinkedIn.resolve.
    by rewrite Hh.
Qed.

(** The Apna parser on a card whose only job link stands outside the title:
    the link is resolved against the site and passes the heuristic. *)
Lemma parse_card_apply_url_witness :
  ∃ r, parse_card ApnaSite apna_card = Some r
       ∧ apply_url r = "https://apna.co/job/delivery-partner-7"
       ∧ apply_url r ≠ "#"
       ∧ Apna.resolve "/job/delivery-partner-7" = "https://apna.co/job/delivery-partner-7".
Proof.
  eexists. split; [reflexivity|]. split; [reflexivity|].
  destruct (parse_card_apply_url ApnaSite apna_card) as [Hurl Hres].
  split.
  - exact (proj1 (Hurl _ eq_refl)).
  - exact (proj1 (Hres "/job/delivery-partner-7" eq_refl)).
Defined.

(** C7 fails twice.  A LinkedIn card without a link leaves the parser with
    the placeholder as its URL; and the TimesJobs parser keeps a link that the
    job-URL heuristic turns down instead of generating the fallback. *)
Lemma placeholder_and_invalid_url_survive :
  (∃ r, parse_card LinkedInSite empty_card = Some r ∧ apply_url r = "#")
  ∧ (∃ r, parse_card TimesJobsSite timesjobs_card_foreign_link = Some r
          ∧ apply_url r = "https://example.com/about"
          ∧ is_valid_job_url (apply_url r) = false
          ∧ apply_url r ≠ get_fallback_job_url (title r) (company r) (source r)).
Proof.
  split.
  - eexists. split; reflexivity.
  - eexists. split_and!; [reflexivity | reflexivity | reflexivity | discriminate].
Qed.

(** ** Fallback substitution *)

(** The LinkedIn extractor substitutes its sample jobs when the fetch raises,
    and only then. *)
Lemma search_linkedin_no_fallback job_title location status_code job_cards :
  status_code ≠ 200%N →
  search_linkedin job_title location (FetchResponse status_code job_cards) = [].
Proof. intros H. simpl. unfold scrape. by case_decide. Qed.

Lemma search_linkedin_fallback_on_exception job_title location msg :
  search_linkedin job_title location (FetchRaises msg)
  = get_sample_linkedin_jobs job_title
  ∧ length (get_sample_linkedin_jobs job_title) = 5.
Proof. split; reflexivity. Qed.

(** C8 at the failing input.  The LinkedIn extractor returns the empty list
    when the site answers with another status than 200, and when the page has
    no job card, whereas the TimesJobs and Apna extractors substitute their
    sample jobs in every such case. *)
Theorem search_linkedin_returns_empty :
  search_linkedin "Data Analyst" "India" (FetchResponse 404 []) = []
  ∧ search_linkedin "Data Analyst" "India" (FetchResponse 200 []) = []
  ∧ search_timesjobs "Data Analyst" "India" (FetchResponse 404 [])
    = get_sample_timesjobs "Data Analyst" "India"
  ∧ search_timesjobs "Data Analyst" "India" (FetchResponse 200 [])
    = get_sample_timesjobs "Data Analyst" "India"
  ∧ (∀ job_title location fetch,
       search_timesjobs job_title location fetch ≠ []
       ∧ search_apna job_title location fetch ≠ []).
Proof.
  split_and!; try reflexivity.
  intros job_title location fetch.
  split; [apply search_timesjobs_nonempty | apply search_apna_nonempty].
Qed.

(** ** Export *)

Section CsvExport.

Implicit Types (job : JobRecord) (jobs : list JobRecord).

(** The row of a dictionary that has the seven columns and nothing else. *)
Lemma dict_to_list_columns t c l e s u src :
  dict_to_list (job_dict (mkJob t c l e s None u src)) = inr [t; c; l; e; s; u; src].
Proof. vm_compute. reflexivity. Qed.

(** A dictionary with a description is refused. *)
Lemma dict_to_list_description t c l e s d u src :
  dict_to_list (job_dict (mkJob t c l e s (Some d) u src))
  = inl (mkExn "ValueError" "dict contains fields not in fieldnames: 'description'").
Proof. vm_compute. reflexivity. Qed.

Lemma write_rows_columns jobs csvfile :
  Forall (λ job, description job = None) jobs →
  write_rows jobs csvfile
  = (csvfile ++ map (λ job, [title job; company job; location job; experience job;
                             salary job; apply_url job; source job]) jobs,
     inr tt).
Proof.
  intros H. revert csvfile. induction H as [|job jobs Hd _ IH]; intros csvfile; simpl.
  - by rewrite app_nil_r.
  - destruct job as [t c l e s d u src]. simpl in Hd. subst d.
    rewrite dict_to_list_columns, IH, <- app_assoc. reflexivity.
Qed.

(** Without descriptions the export is the header and a row per record. *)
Lemma save_to_csv_columns jobs filename timestamp :
  Forall (λ job, description job = None) jobs →
  (save_to_csv jobs filename timestamp).1
  = fieldnames :: map (λ job, [title job; company job; location job; experience job;
                               salary job; apply_url job; source job]) jobs.
Proof. intros H. unfold save_to_csv. by rewrite write_rows_columns. Qed.

(** With a description in the first record the export stops at the header. *)
Lemma save_to_csv_description job jobs filename timestamp :
  description job ≠ None →
  save_to_csv (job :: jobs) filename timestamp
  = ([fieldnames],
     inl (mkExn "ValueError" "dict contains fields not in fieldnames: 'description'")).
Proof.
  intros Hd. destruct job as [t c l e s [d|] u src]; [|done].
  unfold save_to_csv. simpl. by rewrite dict_to_list_description.
Qed.

Lemma dedup_loop_acc jobs seen acc :
  (fold_left dedup_step jobs (seen, acc)).2
  = acc ++ (fold_left dedup_step jobs (seen, [])).2.
Proof.
  revert seen acc. induction jobs as [|job jobs IH]; intros seen acc; simpl.
  - by rewrite app_nil_r.
  - unfold dedup_step at 2 4; simpl. case_decide; [|apply IH].
    rewrite (IH _ (acc ++ [job])), (IH _ [job]), <- app_assoc. reflexivity.
Qed.

(** The first record of the input is the first survivor. *)
Lemma remove_duplicates_head job jobs :
  ∃ rest, remove_duplicates (job :: jobs) = job :: rest.
Proof.
  unfold remove_duplicates. simpl. unfold dedup_step at 2; simpl.
  destruct (decide _) as [H|H]; [|exfalso; apply H, not_elem_of_empty].
  rewrite dedup_loop_acc. by eexists.
Qed.

Lemma search_timesjobs_description job_title location fetch :
  Forall (λ job, description job ≠ None) (search_timesjobs job_title location fetch).
Proof.
  assert (Forall (λ job, description job ≠ None)
            (get_sample_timesjobs job_title location)) as Hsample.
  { unfold get_sample_timesjobs. apply Forall_fmap, Forall_forall. done. }
  destruct fetch as [msg|status_code job_cards]; simpl; [done|].
  pose proof (scrape_Forall (λ job, description job ≠ None)
                parse_timesjobs_job_card 8 status_code job_cards) as H.
  destruct (scrape _ _ _ _); [done|]. apply H.
  intros card r (_ & _ & ->)%parse_timesjobs_job_card_Some. simpl.
  by destruct (first_match _ _).
Qed.

(** The result of [search_jobs] begins with a TimesJobs record, and that
    record has a description. *)
Lemma search_jobs_head job_title location w :
  ∃ job rest, search_jobs job_title location w = job :: rest
              ∧ source job = "TimesJobs" ∧ description job ≠ None.
Proof.
  pose proof (search_timesjobs_nonempty job_title location (timesjobs_fetch w)) as Hne.
  pose proof (search_timesjobs_source job_title location (timesjobs_fetch w)) as Hsrc.
  pose proof (search_timesjobs_description job_title location (timesjobs_fetch w)) as Hd.
  unfold search_jobs, collect_jobs. cbv zeta.
  destruct (search_timesjobs _ _ _) as [|job timesjobs]; [done|].
  inversion_clear Hsrc as [|?? Hs _]. inversion_clear Hd as [|?? Hd' _].
  assert (is_timesjobs job = true) as Ht by (unfold is_timesjobs; by rewrite Hs).
  assert (∃ rest, remove_duplicates
            (if decide (length (List.filter is_timesjobs
                          ((job :: timesjobs) ++
                           search_linkedin job_title location (linkedin_fetch w))) = 0)
             then ((job :: timesjobs) ++
                   search_linkedin job_title location (linkedin_fetch w)) ++
                  take 4 (get_sample_timesjobs job_title location)
             else (job :: timesjobs) ++
                  search_linkedin job_title location (linkedin_fetch w))
            = job :: rest) as [rest ->].
  { case_decide; apply remove_duplicates_head. }
  unfold mix_sources. cbv zeta.
  generalize (List.filter is_linkedin (job :: rest)). intros L.
  simpl. rewrite Ht. destruct L as [|b L].
  - rewrite alternate_nil_r. eauto.
  - rewrite alternate_cons_cons. eauto.
Qed.

(** So the export of what [search_jobs] returns always raises. *)
Lemma save_to_csv_search_jobs job_title location w filename timestamp :
  save_to_csv (search_jobs job_title location w) filename timestamp
  = ([fieldnames],
     inl (mkExn "ValueError" "dict contains fields not in fieldnames: 'description'")).
Proof.
  destruct (search_jobs_head job_title location w) as (job & rest & -> & _ & Hd).
  by apply save_to_csv_description.
Qed.

End CsvExport.

(** C9 at the failing input.  On the sample TimesJobs records, whose
    dictionaries have a ['description'] that is no column, the export writes
    the header row and raises [ValueError] at the first record: no row follows
    the header. *)
Theorem save_to_csv_raises_on_description :
  save_to_csv (get_sample_timesjobs "Data Analyst" "India") None "20260101_120000"
  = ([ [ "title"; "company"; "location"; "experience"; "salary"; "apply_url"; "source" ] ],
     inl (mkExn "ValueError" "dict contains fields not in fieldnames: 'description'")).
Proof. vm_compute. reflexivity. Qed.

(** ** The [/search] route *)

Section RouteProperties.

Variable run_search : string → string → Result (list JobRecord).

(** A body that is no JSON object, or a field that is no string, ends in
    the [except] branch. *)
Lemma search_route_malformed (data : RequestJson) :
  match data with
  | JsonRaises e => search_route run_search data = (Failure (exn_str e), 500%N)
  | JsonOther v =>
      search_route run_search data
      = (Failure (exn_str (attribute_error (type_name v) "get")), 500%N)
  | JsonObject fields =>
      ∀ v, (∀ s, v ≠ JStr s) →
        fields !! "job_title" = Some v ∨ fields !! "location" = Some v →
        ∃ msg, search_route run_search data = (Failure msg, 500%N)
  end.
Proof.
  destruct data as [e|fields|v]; [done| |done].
  intros v Hv [H|H]; unfold search_route, search_route_try; simpl; rewrite H; simpl.
  - destruct v; try (by eexists). by destruct (Hv s).
  - destruct (default (JStr "") (fields !! "job_title")) as [t| | | | | |];
      simpl; try (by eexists).
    destruct v; try (by eexists). by destruct (Hv s).
Qed.

End RouteProperties.

(** C10, as the code has it.  Take a request whose body is a JSON object in
    which [job_title] and [location] are strings when they are there; a
    missing [job_title] counts as empty and a missing [location] as
    ["India"].  If the title is empty after trimming, the answer is the error
    ['Job title is required'] with status 400.  Otherwise the pipeline is run
    on the trimmed title and location: when it returns, the answer has its
    records and their count, with status 200; when it raises, the answer is
    the failure indicator with the message of the exception, with status
    500. *)
Theorem search_route_contract
    (run_search : string → string → Result (list JobRecord))
    (fields : gmap string Json) (job_title location : string) :
  (fields !! "job_title" = None ∧ job_title = "")
    ∨ fields !! "job_title" = Some (JStr job_title) →
  (fields !! "location" = None ∧ location = "India")
    ∨ fields !! "location" = Some (JStr location) →
  search_route run_search (JsonObject fields)
  = if Text.truthy (Text.strip job_title)
    then match run_search (Text.strip job_title) (Text.strip location) with
         | inr jobs => (Success jobs (length jobs), 200%N)
         | inl e => (Failure (exn_str e), 500%N)
         end
    else (ErrorOnly "Job title is required", 400%N).
Proof.
  intros Ht Hl. unfold search_route, search_route_try. simpl.
  assert (default (JStr "") (fields !! "job_title") = JStr job_title) as ->.
  { destruct Ht as [[-> ->]| ->]; reflexivity. }
  assert (default (JStr "India") (fields !! "location") = JStr location) as ->.
  { destruct Hl as [[-> ->]| ->]; reflexivity. }
  simpl. destruct (Text.truthy (Text.strip job_title)); simpl; [|done].
  by destruct (run_search _ _).
Qed.

(** A request for [" Data Analyst "] without a location, when both sites
    are out of reach: the sample TimesJobs records and the sample LinkedIn
    records come back, nine in all. *)
Lemma search_route_contract_witness :
  let w := mkWorld (FetchRaises "timeout") (FetchRaises "timeout") in
  search_endpoint w (JsonObject {[ "job_title" := JStr " Data Analyst " ]})
  = (Success (search_jobs "Data Analyst" "India" w) 9, 200%N).
Proof.
  intros w. unfold search_endpoint.
  rewrite (search_route_contract _ _ " Data Analyst " "India");
    [reflexivity | right; reflexivity | left; split; reflexivity].
Defined.

(** C10 fails on a request with an empty title and a [location] that is no
    string: the location is stripped before the title is looked at, and the
    answer is the failure with status 500, not the client error. *)
Lemma empty_title_answered_500 :
  let w := mkWorld (FetchRaises "timeout") (FetchRaises "timeout") in
  search_endpoint w (JsonObject {[ "job_title" := JStr ""; "location" := JNull ]})
  = (Failure "'NoneType' object has no attribute 'strip'", 500%N).
Proof. vm_compute. reflexivity. Qed.

(** * Further properties *)

(** ** Deduplication *)

Section DedupMore.

Implicit Types (jobs earlier later : list JobRecord) (job : JobRecord).

Lemma remove_duplicates_distinct_snoc earlier job :
  NoDup (dedup_key <$> (earlier ++ [job])) →
  NoDup (dedup_key <$> earlier) ∧ dedup_key job ∉ dedup_key <$> earlier.
Proof.
  rewrite fmap_app. intros (H1 & H2 & _)%NoDup_app. split; [done|].
  intros Hin. apply (H2 _ Hin). simpl. by apply list_elem_of_singleton.
Qed.

Lemma remove_duplicates_id jobs :
  NoDup (dedup_key <$> jobs) → remove_duplicates jobs = jobs.
Proof.
  induction jobs as [|job earlier IH] using rev_ind; [done|].
  intros [Hnd Hnew]%remove_duplicates_distinct_snoc.
  rewrite remove_duplicates_snoc. case_decide; [done|]. by rewrite IH.
Qed.

(** X1. Records with pairwise distinct keys all survive: the list is
    returned as it is. *)
Theorem remove_duplicates_distinct jobs :
  NoDup (dedup_key <$> jobs) → remove_duplicates jobs = jobs.
Proof. apply remove_duplicates_id. Qed.

(** Three records of three companies. *)
Lemma remove_duplicates_distinct_witness :
  let jobs := [ job_of "Data Analyst" "Acme" "TimesJobs";
                job_of "Data Analyst" "Globex" "LinkedIn";
                job_of "Data Engineer" "Acme" "LinkedIn" ] in
  remove_duplicates jobs = jobs.
Proof.
  intros jobs. apply (remove_duplicates_distinct jobs).
  apply (bool_decide_unpack _). vm_compute. reflexivity.
Defined.

(** X2. Deduplicating twice is deduplicating once. *)
Theorem remove_duplicates_idempotent jobs :
  remove_duplicates (remove_duplicates jobs) = remove_duplicates jobs.
Proof. apply remove_duplicates_id, remove_duplicates_NoDup. Qed.

Lemma remove_duplicates_app_filter earlier later :
  remove_duplicates (earlier ++ later)
  = remove_duplicates earlier
    ++ filter (λ job, dedup_key job ∉ dedup_key <$> earlier) (remove_duplicates later).
Proof.
  induction later as [|job later IH] using rev_ind.
  - by rewrite app_nil_r, remove_duplicates_nil, filter_nil, app_nil_r.
  - rewrite app_assoc, !remove_duplicates_snoc, IH, fmap_app.
    destruct (decide (dedup_key job ∈ dedup_key <$> later)) as [Hl|Hl].
    + rewrite decide_True by (apply elem_of_app; by right). reflexivity.
    + rewrite filter_app, filter_cons, filter_nil.
      destruct (decide (dedup_key job ∈ dedup_key <$> earlier)) as [He|He].
      * rewrite decide_True by (apply elem_of_app; by left).
        rewrite decide_False by (by intros H; apply H).
        by rewrite app_nil_r.
      * rewrite decide_False by (by intros [?|?]%elem_of_app).
        rewrite decide_True by done. by rewrite app_assoc.
Qed.

(** X3. Deduplication of a concatenation: the survivors of the first list,
    then the survivors of the second whose key the first list does not have. *)
Theorem remove_duplicates_app earlier later :
  remove_duplicates (earlier ++ later)
  = remove_duplicates earlier
    ++ filter (λ job, dedup_key job ∉ dedup_key <$> earlier) (remove_duplicates later).
Proof. apply remove_duplicates_app_filter. Qed.

(** X4. Deduplication never lengthens the list, keeps the first record of a
    non-empty list in front, and returns nothing only for no input. *)
Theorem remove_duplicates_bounds jobs :
  length (remove_duplicates jobs) ≤ length jobs
  ∧ head (remove_duplicates jobs) = head jobs
  ∧ (remove_duplicates jobs = [] ↔ jobs = []).
Proof.
  split_and!.
  - apply sublist_length, remove_duplicates_sublist.
  - destruct jobs as [|job jobs]; [done|].
    by destruct (remove_duplicates_head job jobs) as [rest ->].
  - destruct jobs as [|job jobs]; [done|].
    destruct (remove_duplicates_head job jobs) as [rest ->]. split; discriminate.
Qed.

End DedupMore.

(** ** Interleaving *)

Section InterleaveMore.

Implicit Types (T L unique_jobs : list JobRecord) (job : JobRecord).

Lemma alternate_Permutation T L : alternate T L ≡ₚ T ++ L.
Proof.
  revert L. induction T as [|a T IH]; intros L.
  - by rewrite alternate_nil_l.
  - destruct L as [|b L].
    + by rewrite alternate_nil_r, app_nil_r.
    + rewrite alternate_cons_cons, IH. simpl. constructor.
      by rewrite <- Permutation_middle.
Qed.

Lemma alternate_sublist_l T L : T `sublist_of` alternate T L.
Proof.
  revert L. induction T as [|a T IH]; intros L; [apply sublist_nil_l|].
  destruct L as [|b L].
  - by rewrite alternate_nil_r.
  - rewrite alternate_cons_cons. apply sublist_skip, sublist_cons, IH.
Qed.

Lemma alternate_sublist_r T L : L `sublist_of` alternate T L.
Proof.
  revert L. induction T as [|a T IH]; intros L.
  - by rewrite alternate_nil_l.
  - destruct L as [|b L]; [apply sublist_nil_l|].
    rewrite alternate_cons_cons. apply sublist_cons, sublist_skip, IH.
Qed.

(** X5. Alternating two lists rearranges their concatenation and keeps the
    order within each of them. *)
Theorem alternate_rearranges T L :
  alternate T L ≡ₚ T ++ L
  ∧ T `sublist_of` alternate T L
  ∧ L `sublist_of` alternate T L.
Proof.
  split_and!;
    [apply alternate_Permutation | apply alternate_sublist_l | apply alternate_sublist_r].
Qed.

(** X6. The mixed list holds the records whose source names TimesJobs or
    LinkedIn and no other: a record of another source is dropped. *)
Theorem mix_sources_elem_of unique_jobs job :
  job ∈ mix_sources unique_jobs
  ↔ job ∈ unique_jobs ∧ (is_timesjobs job = true ∨ is_linkedin job = true).
Proof.
  unfold mix_sources. rewrite alternate_Permutation, elem_of_app.
  rewrite !list_elem_of_In, !filter_In. tauto.
Qed.

Lemma known_source_partition unique_jobs :
  Forall known_source unique_jobs →
  List.filter is_timesjobs unique_jobs ++ List.filter is_linkedin unique_jobs
  ≡ₚ unique_jobs.
Proof.
  induction 1 as [|job jobs [Hs|Hs] _ IH]; [done| |]; simpl;
    unfold is_timesjobs, is_linkedin at 1; rewrite Hs; simpl.
  - by constructor.
  - by rewrite <- Permutation_middle, IH.
Qed.

Lemma mix_sources_Permutation unique_jobs :
  Forall known_source unique_jobs → mix_sources unique_jobs ≡ₚ unique_jobs.
Proof.
  intros H. unfold mix_sources.
  by rewrite alternate_Permutation, known_source_partition.
Qed.

Lemma search_jobs_Permutation job_title location w :
  search_jobs job_title location w
  ≡ₚ remove_duplicates (collect_jobs job_title location w).
Proof.
  apply mix_sources_Permutation, remove_duplicates_Forall, collect_jobs_known_source.
Qed.

(** X7. What [search_jobs] returns is a rearrangement of the deduplicated
    records: no record is lost or doubled, and no two records of the result
    have the same key. *)
Theorem search_jobs_no_duplicates job_title location w :
  search_jobs job_title location w
  ≡ₚ remove_duplicates (collect_jobs job_title location w)
  ∧ NoDup (dedup_key <$> search_jobs job_title location w).
Proof.
  split; [apply search_jobs_Permutation|].
  rewrite search_jobs_Permutation. apply remove_duplicates_NoDup.
Qed.

(** X8. [search_jobs] never returns the empty list, and its first record is
    a TimesJobs record. *)
Theorem search_jobs_nonempty job_title location w :
  search_jobs job_title location w ≠ []
  ∧ ∃ job, head (search_jobs job_title location w) = Some job
           ∧ source job = "TimesJobs".
Proof.
  destruct (search_jobs_head job_title location w) as (job & rest & -> & Hs & _).
  split; [discriminate | by exists job].
Qed.

(** X9. TimesJobs wins a duplicate: a LinkedIn record of the result has the
    key of no record that the TimesJobs extractor returned. *)
Theorem search_jobs_timesjobs_first job_title location w job :
  job ∈ search_jobs job_title location w →
  source job = "LinkedIn" →
  dedup_key job ∉ dedup_key <$> search_timesjobs job_title location (timesjobs_fetch w).
Proof.
  rewrite search_jobs_Permutation. intros Hin Hs.
  assert (∃ later, collect_jobs job_title location w
                   = search_timesjobs job_title location (timesjobs_fetch w) ++ later)
    as [later Hc].
  { unfold collect_jobs. cbv zeta. case_decide; [rewrite <- app_assoc|]; by eexists. }
  rewrite Hc, remove_duplicates_app_filter in Hin.
  apply elem_of_app in Hin as [Hin|Hin].
  - pose proof (search_timesjobs_source job_title location (timesjobs_fetch w)) as Hsrc.
    apply (remove_duplicates_Forall _ _) in Hsrc. rewrite Forall_forall in Hsrc.
    specialize (Hsrc job Hin). simpl in Hsrc. congruence.
  - by apply list_elem_of_filter in Hin as [Hin _].
Qed.

(** Both sites fail but LinkedIn returns one card: its record has no key of
    the TimesJobs samples and stays. *)
Lemma search_jobs_timesjobs_first_witness :
  let w := mkWorld (FetchRaises "timeout") (FetchResponse 200 [linkedin_card]) in
  let job := mkJob "Data Analyst" "Globex" "Remote" "Not specified" "Not disclosed"
               None "https://www.linkedin.com/jobs/view/42" "LinkedIn" in
  dedup_key job ∉ dedup_key <$> search_timesjobs "Data Analyst" "India" (timesjobs_fetch w).
Proof.
  intros w job. apply (search_jobs_timesjobs_first "Data Analyst" "India" w job).
  - apply (list_elem_of_lookup_2 _ 1). vm_compute. reflexivity.
  - reflexivity.
Defined.

End InterleaveMore.

(** ** The extractors *)

Section ExtractorsMore.

Implicit Types (card : Card) (r job : JobRecord) (fetch : Fetch).

Lemma length_omap_le {A B} (f : A → option B) (l : list A) :
  length (omap f l) ≤ length l.
Proof. induction l as [|x l IH]; csimpl; [done|]. destruct (f x); csimpl; lia. Qed.

Lemma scrape_length parse limit status_code job_cards :
  length (scrape parse limit status_code job_cards) ≤ limit.
Proof.
  unfold scrape. case_decide; simpl; [|lia].
  etransitivity; [apply length_omap_le|]. rewrite length_take. lia.
Qed.

Lemma parse_apna_job_card_source card r :
  parse_apna_job_card card = Some r → source r = "Apna.co".
Proof. by intros (_ & _ & _ & _ & _ & _ & _ & ? & _)%parse_apna_job_card_Some. Qed.

Lemma get_sample_lengths job_title location :
  length (get_sample_timesjobs job_title location) = 4
  ∧ length (get_sample_apna_jobs job_title location) = 6
  ∧ length (get_sample_linkedin_jobs job_title) = 5.
Proof. split_and!; reflexivity. Qed.

(** X10. The TimesJobs extractor returns between one and eight records,
    whatever the fetch did, and every one of them is tagged ['TimesJobs']. *)
Theorem search_timesjobs_bounds job_title location fetch :
  1 ≤ length (search_timesjobs job_title location fetch) ≤ 8
  ∧ Forall (λ job, source job = "TimesJobs") (search_timesjobs job_title location fetch).
Proof.
  split; [|apply search_timesjobs_source].
  destruct (get_sample_lengths job_title location) as (Hlen & _ & _).
  destruct fetch as [msg|status_code job_cards]; simpl search_timesjobs; [lia|].
  pose proof (scrape_length parse_timesjobs_job_card 8 status_code job_cards) as H.
  destruct (scrape _ _ _ _); [lia|]. simpl length in *. lia.
Qed.

(** X11. The Apna extractor returns between one and eight records, whatever
    the fetch did, and every one of them is tagged ['Apna.co']. *)
Theorem search_apna_bounds job_title location fetch :
  1 ≤ length (search_apna job_title location fetch) ≤ 8
  ∧ Forall (λ job, source job = "Apna.co") (search_apna job_title location fetch).
Proof.
  pose proof (get_sample_apna_jobs_source job_title location) as Hsample.
  destruct (get_sample_lengths job_title location) as (_ & Hlen & _).
  destruct fetch as [msg|status_code job_cards]; simpl search_apna; [split; [lia|done]|].
  pose proof (scrape_length parse_apna_job_card 8 status_code job_cards) as H.
  pose proof (scrape_Forall (λ job, source job = "Apna.co") parse_apna_job_card 8
                status_code job_cards parse_apna_job_card_source) as Hs.
  destruct (scrape _ _ _ _); [split; [lia|done]|].
  split; [simpl length in *; lia|done].
Qed.

(** X12. The LinkedIn extractor returns at most ten records, every one
    tagged ['LinkedIn'].  Its parser turns no card down: on status 200 there
    is one record for each of the first ten cards.  On an exception the five
    sample jobs are returned. *)
Theorem search_linkedin_bounds job_title location fetch :
  length (search_linkedin job_title location fetch) ≤ 10
  ∧ Forall (λ job, source job = "LinkedIn") (search_linkedin job_title location fetch)
  ∧ match fetch with
    | FetchResponse status_code job_cards =>
        length (search_linkedin job_title location fetch)
        = if decide (status_code = 200%N) then Nat.min 10 (length job_cards) else 0
    | FetchRaises _ => length (search_linkedin job_title location fetch) = 5
    end.
Proof.
  split_and!; [|apply search_linkedin_source|].
  - destruct fetch as [msg|status_code job_cards]; simpl search_linkedin;
      [|apply scrape_length].
    destruct (get_sample_lengths job_title location) as (_ & _ & Hlen). lia.
  - destruct fetch as [msg|status_code job_cards]; simpl search_linkedin; [done|].
    unfold scrape. case_decide; [|done].
    rewrite <- length_take. generalize (take 10 job_cards). intros l.
    induction l as [|card l IH]; csimpl; [done|]. by rewrite IH.
Qed.

Lemma NoDup_keys_by_company (jobs : list JobRecord) :
  NoDup ((λ job, Text.strip (Text.lower (company job))) <$> jobs) →
  NoDup (dedup_key <$> jobs).
Proof.
  intros H. apply (NoDup_fmap_1 snd). by rewrite <- list_fmap_compose.
Qed.

(** X13. When both fetches raise, [search_jobs] returns the four TimesJobs
    samples and the five LinkedIn samples, alternating, whatever the query:
    nine records. *)
Theorem search_jobs_all_samples job_title location msg1 msg2 :
  search_jobs job_title location (mkWorld (FetchRaises msg1) (FetchRaises msg2))
  = alternate (get_sample_timesjobs job_title location)
              (get_sample_linkedin_jobs job_title)
  ∧ length (search_jobs job_title location
              (mkWorld (FetchRaises msg1) (FetchRaises msg2))) = 9.
Proof.
  assert (search_jobs job_title location (mkWorld (FetchRaises msg1) (FetchRaises msg2))
          = alternate (get_sample_timesjobs job_title location)
              (get_sample_linkedin_jobs job_title)) as ->.
  { unfold search_jobs, collect_jobs. cbv zeta. simpl search_timesjobs.
    simpl search_linkedin.
    rewrite decide_False by (vm_compute; discriminate).
    rewrite remove_duplicates_id.
    - reflexivity.
    - apply NoDup_keys_by_company. apply (bool_decide_unpack _). vm_compute. reflexivity. }
  split; [reflexivity|]. by rewrite alternate_length.
Qed.

(** X14. Which cards a parser accepts: Apna's one with a title, linked or
    not; TimesJobs' and Indeed's one with a title and a company; LinkedIn's
    every card. *)
Theorem parse_card_accepts (site : Site) card :
  is_Some (parse_card site card)
  ↔ match site with
    | ApnaSite => candidate_title site card ≠ ""
    | TimesJobsSite | IndeedSite =>
        candidate_title site card ≠ "" ∧ get_text card (company_selectors site) ≠ ""
    | LinkedInSite => True
    end.
Proof.
  destruct site; simpl.
  - rewrite <- not_eq_None_Some, parse_apna_job_card_None. unfold str_or.
    destruct (Text.truthy (get_text card Apna.title_selectors)) eqn:Ht.
    + apply truthy_true in Ht. tauto.
    + apply truthy_false in Ht. tauto.
  - rewrite parse_timesjobs_job_card_eq. cbv zeta.
    rewrite <- !truthy_true.
    destruct (Text.truthy _), (Text.truthy _); simpl;
      rewrite ?is_Some_alt; intuition congruence.
  - rewrite parse_indeed_job_card_eq. cbv zeta.
    rewrite <- !truthy_true.
    destruct (Text.truthy _), (Text.truthy _); simpl;
      rewrite ?is_Some_alt; intuition congruence.
  - split; [done|]. by eexists.
Qed.

End ExtractorsMore.

(** ** Text *)

#[local] Arguments String.append !_ _ : simpl nomatch.

Section TextFacts.

Implicit Types (s p a b w : string) (c d : ascii).

Lemma lower_char_idempotent c : Text.lower_char (Text.lower_char c) = Text.lower_char c.
Proof. by destruct c as [[] [] [] [] [] [] [] []]. Qed.

Lemma lower_char_space c : Text.is_space c = true → Text.lower_char c = c.
Proof. by destruct c as [[] [] [] [] [] [] [] []]. Qed.

Lemma lower_idempotent s : Text.lower (Text.lower s) = Text.lower s.
Proof. induction s as [|c s IH]; simpl; [done|]. by rewrite lower_char_idempotent, IH. Qed.

Lemma lower_app a b : Text.lower (a +:+ b) = Text.lower a +:+ Text.lower b.
Proof. induction a as [|c a IH]; simpl; [done|]. by rewrite IH. Qed.

Lemma lower_truthy s : Text.truthy (Text.lower s) = Text.truthy s.
Proof. by destruct s. Qed.

Lemma is_blank_cons c w : is_blank (String c w) ↔ Text.is_space c = true ∧ is_blank w.
Proof.
  unfold is_blank. simpl. destruct (Text.is_space c); [|split; [done|by intros [? _]]].
  split; [done|by intros [_ ?]].
Qed.

Lemma lower_blank w : is_blank w → Text.lower w = w.
Proof.
  induction w as [|c w IH]; [done|]. intros [Hc Hw]%is_blank_cons. simpl.
  by rewrite lower_char_space, IH.
Qed.

Lemma lstrip_app_blank w s : is_blank w → Text.lstrip (w +:+ s) = Text.lstrip s.
Proof.
  induction w as [|c w IH]; [done|]. intros [Hc Hw]%is_blank_cons. simpl.
  rewrite Hc. by apply IH.
Qed.

Lemma rstrip_blank w : is_blank w → Text.rstrip w = "".
Proof.
  induction w as [|c w IH]; [done|]. intros [Hc Hw]%is_blank_cons. simpl.
  by rewrite IH, Hc.
Qed.

Lemma rstrip_app_blank s w : is_blank w → Text.rstrip (s +:+ w) = Text.rstrip s.
Proof.
  intros Hw. induction s as [|c s IH]; simpl; [by apply rstrip_blank|]. by rewrite IH.
Qed.

Lemma strip_app_blank_r s w : is_blank w → Text.strip (s +:+ w) = Text.strip s.
Proof.
  intros Hw. unfold Text.strip. induction s as [|c s IH].
  - simpl. unfold is_blank in Hw. by rewrite Hw.
  - change (Text.lstrip (String c s +:+ w))
      with (if Text.is_space c then Text.lstrip (s +:+ w) else String c s +:+ w).
    change (Text.lstrip (String c s))
      with (if Text.is_space c then Text.lstrip s else String c s).
    destruct (Text.is_space c); [exact IH | by apply rstrip_app_blank].
Qed.

(** Blanks around a text do not show after [strip]. *)
Lemma strip_surrounded w1 s w2 :
  is_blank w1 → is_blank w2 → Text.strip (w1 +:+ s +:+ w2) = Text.strip s.
Proof.
  intros H1 H2. rewrite <- (strip_app_blank_r s w2 H2).
  unfold Text.strip. by rewrite lstrip_app_blank.
Qed.

Lemma prefix_lower p s :
  String.prefix p s = true → String.prefix (Text.lower p) (Text.lower s) = true.
Proof.
  revert s. induction p as [|c p IH]; intros s; [by destruct s|].
  destruct s as [|d s]; [done|]. simpl.
  destruct (ascii_dec c d) as [->|]; [|done]. intros H.
  destruct (ascii_dec _ _); [by apply IH|done].
Qed.

Lemma contains_lower p s :
  Text.contains p s = true → Text.contains (Text.lower p) (Text.lower s) = true.
Proof.
  induction s as [|d s IH]; simpl.
  - rewrite !orb_false_r. apply (prefix_lower p "").
  - intros [H|H]%orb_prop; apply orb_true_iff; [left|right; by apply IH].
    by apply (prefix_lower p (String d s)).
Qed.

Lemma contains_app_r p a s :
  Text.contains p s = true → Text.contains p (a +:+ s) = true.
Proof.
  intros H. induction a as [|c a IH]; simpl; [done|]. rewrite IH. apply orb_true_r.
Qed.

Lemma startswith_app p s : Text.startswith (p +:+ s) p = true.
Proof.
  unfold Text.startswith. induction p as [|c p IH]; simpl; [by destruct s|].
  by destruct (ascii_dec c c).
Qed.

Lemma contains_truthy p s :
  Text.truthy p = true → Text.contains p s = true → Text.truthy s = true.
Proof. destruct p, s; done. Qed.

Lemma contains_char_app c a b :
  Text.contains (String c "") (a +:+ b)
  = Text.contains (String c "") a || Text.contains (String c "") b.
Proof.
  induction a as [|d a IH]; simpl.
  - by destruct b.
  - rewrite IH, orb_assoc. f_equal. by destruct (ascii_dec c d), a, b.
Qed.

Lemma replace_no_char c new s :
  Text.contains (String c "") new = false →
  Text.contains (String c "") (Text.replace c new s) = false.
Proof.
  intros Hnew. induction s as [|d s IH]; simpl; [done|].
  rewrite contains_char_app, IH, orb_false_r.
  destruct (Ascii.eqb d c) eqn:Heq; [done|].
  simpl. destruct (ascii_dec c d) as [->|]; [|done].
  by rewrite Ascii.eqb_refl in Heq.
Qed.

End TextFacts.

(** ** Job URLs *)

(** X15. A URL in which one of the job patterns occurs is a valid job URL,
    whatever the case of the letters around it. *)
Theorem is_valid_job_url_contains (url pattern : string) :
  pattern ∈ job_patterns → Text.contains pattern url = true →
  is_valid_job_url url = true.
Proof.
  intros Hp Hc. unfold is_valid_job_url.
  assert (Text.truthy pattern = true ∧ Text.lower pattern = pattern) as [Ht Hl].
  { unfold job_patterns in Hp. repeat (apply elem_of_cons in Hp as [->|Hp]; [done|]).
    by apply elem_of_nil in Hp. }
  rewrite (contains_truthy pattern url Ht Hc).
  change (existsb (λ pattern, Text.contains pattern (Text.lower url)) job_patterns = true).
  apply existsb_exists. exists pattern. split; [by apply list_elem_of_In|].
  rewrite <- Hl. by apply contains_lower.
Qed.

Lemma is_valid_job_url_contains_witness :
  is_valid_job_url "https://www.timesjobs.com/job-detail/data-analyst-1" = true.
Proof.
  apply (is_valid_job_url_contains _ "job-detail"); [|reflexivity].
  apply (list_elem_of_lookup_2 _ 7). reflexivity.
Defined.

(** X16. The validity of a URL does not depend on the case of its letters. *)
Theorem is_valid_job_url_case (url url' : string) :
  Text.lower url = Text.lower url' → is_valid_job_url url = is_valid_job_url url'.
Proof.
  intros H. unfold is_valid_job_url.
  rewrite <- (lower_truthy url), <- (lower_truthy url'), H. reflexivity.
Qed.

Lemma is_valid_job_url_case_witness :
  is_valid_job_url "HTTPS://APNA.CO/JOBS/7" = is_valid_job_url "https://apna.co/jobs/7".
Proof. apply is_valid_job_url_case. reflexivity. Defined.

(** X17. The fallback URL is an absolute https URL, never the placeholder,
    and has no blank in it, whatever the title, the company and the source. *)
Theorem get_fallback_job_url_well_formed (job_title company source : string) :
  Text.startswith (get_fallback_job_url job_title company source) "https://" = true
  ∧ get_fallback_job_url job_title company source ≠ "#"
  ∧ Text.contains " " (get_fallback_job_url job_title company source) = false.
Proof.
  split_and!.
  - unfold get_fallback_job_url. repeat case_decide; reflexivity.
  - apply get_fallback_job_url_not_placeholder.
  - unfold get_fallback_job_url.
    repeat case_decide; rewrite !contains_char_app, !replace_no_char; reflexivity.
Qed.

(** ** Trimming *)

Section Trimming.

Implicit Types (s w : string) (c : ascii) (job variant : JobRecord).

Lemma lstrip_head s :
  Text.lstrip s = "" ∨ ∃ c r, Text.lstrip s = String c r ∧ Text.is_space c = false.
Proof.
  induction s as [|c s IH]; simpl; [by left|].
  destruct (Text.is_space c) eqn:Hc; [exact IH|]. right. by exists c, s.
Qed.

Lemma rstrip_head c r :
  Text.is_space c = false → ∃ r', Text.rstrip (String c r) = String c r'.
Proof. intros Hc. simpl. rewrite Hc. destruct (Text.rstrip r); by eexists. Qed.

Lemma rstrip_idempotent s : Text.rstrip (Text.rstrip s) = Text.rstrip s.
Proof.
  induction s as [|c s IH]; [done|].
  change (Text.rstrip (String c s))
    with (match Text.rstrip s with
          | "" => if Text.is_space c then "" else String c ""
          | r => String c r
          end).
  destruct (Text.rstrip s) as [|d r] eqn:Hr.
  - destruct (Text.is_space c) eqn:Hc; [done|]. simpl. by rewrite Hc.
  - change (Text.rstrip (String c (String d r)))
      with (match Text.rstrip (String d r) with
            | "" => if Text.is_space c then "" else String c ""
            | r => String c r
            end).
    by rewrite IH.
Qed.

Lemma strip_idempotent s : Text.strip (Text.strip s) = Text.strip s.
Proof.
  unfold Text.strip. destruct (lstrip_head s) as [->|(c & r & -> & Hc)]; [done|].
  destruct (rstrip_head c r Hc) as [r' Hr].
  assert (Text.lstrip (Text.rstrip (String c r)) = Text.rstrip (String c r)) as ->.
  { rewrite Hr. simpl. by rewrite Hc. }
  apply rstrip_idempotent.
Qed.

Lemma strip_empty_blank s : Text.strip s = "" ↔ is_blank s.
Proof.
  unfold Text.strip, is_blank.
  destruct (lstrip_head s) as [->|(c & r & -> & Hc)]; [done|].
  destruct (rstrip_head c r Hc) as [r' ->]. done.
Qed.

Lemma get_text_strip_empty (e : Element) :
  get_text_strip e = "" ↔ Forall is_blank (strings e).
Proof.
  unfold get_text_strip. induction (strings e) as [|s l IH]; simpl.
  - split; [constructor|done].
  - rewrite Forall_cons, <- IH, <- strip_empty_blank.
    destruct (Text.strip s) eqn:Hs; simpl; [tauto|].
    split; [done|]. by intros [? _].
Qed.

(** X18. [get_text] returns the empty string in two cases only: no selector
    matches, or the element of the first selector that matches has no text
    node but blank ones; the later selectors are not tried then. *)
Theorem get_text_empty (element : Card) (selectors : list string) :
  get_text element selectors = ""
  ↔ match first_match element selectors with
    | Some found => Forall is_blank (strings found)
    | None => True
    end.
Proof.
  unfold get_text. destruct (first_match element selectors) as [found|]; [|done].
  apply get_text_strip_empty.
Qed.

(** X19. A record that repeats an earlier one up to the case of the letters
    and the blanks around the title and the company is dropped. *)
Theorem remove_duplicates_variant (jobs : list JobRecord) job variant
    (w1 w2 w3 w4 t c : string) :
  job ∈ jobs →
  is_blank w1 → is_blank w2 → is_blank w3 → is_blank w4 →
  Text.lower t = Text.lower (title job) →
  Text.lower c = Text.lower (company job) →
  title variant = w1 +:+ t +:+ w2 →
  company variant = w3 +:+ c +:+ w4 →
  remove_duplicates (jobs ++ [variant]) = remove_duplicates jobs.
Proof.
  intros Hin H1 H2 H3 H4 Ht Hc Htv Hcv.
  assert (dedup_key variant = dedup_key job) as Hkey.
  { unfold dedup_key. rewrite Htv, Hcv, !lower_app.
    rewrite (lower_blank w1), (lower_blank w2), (lower_blank w3), (lower_blank w4) by done.
    by rewrite !strip_surrounded, Ht, Hc by done. }
  rewrite remove_duplicates_snoc, Hkey.
  rewrite decide_True; [done|]. apply list_elem_of_fmap. by exists job.
Qed.

Lemma remove_duplicates_variant_witness :
  remove_duplicates [ job_of "Python Developer" "TCS" "TimesJobs";
                      job_of "  PYTHON developer " " tcs" "LinkedIn" ]
  = remove_duplicates [ job_of "Python Developer" "TCS" "TimesJobs" ].
Proof.
  apply (remove_duplicates_variant [job_of "Python Developer" "TCS" "TimesJobs"]
           (job_of "Python Developer" "TCS" "TimesJobs")
           (job_of "  PYTHON developer " " tcs" "LinkedIn")
           "  " " " " " "" "PYTHON developer" "tcs");
    try reflexivity.
  apply (list_elem_of_lookup_2 _ 0). reflexivity.
Defined.

End Trimming.

(** ** Export and [main] *)

(** X20. Records without a description are exported in full: the file is
    the header row followed by the seven fields of every record, in order,
    and the call returns the name of the file, [jobs_<timestamp>.csv] when
    none was given. *)
Theorem save_to_csv_writes_rows (jobs : list JobRecord) (filename : option string)
    (timestamp : string) :
  Forall (λ job, description job = None) jobs →
  save_to_csv jobs filename timestamp
  = (fieldnames
       :: map (λ job, [title job; company job; location job; experience job;
                       salary job; apply_url job; source job]) jobs,
     inr (match filename with
          | Some f => if Text.truthy f then f else "jobs_" +:+ timestamp +:+ ".csv"
          | None => "jobs_" +:+ timestamp +:+ ".csv"
          end)).
Proof. intros H. unfold save_to_csv. by rewrite write_rows_columns. Qed.

(** Two records as the LinkedIn parser makes them. *)
Lemma save_to_csv_writes_rows_witness :
  save_to_csv [ job_of "Data Analyst" "Globex" "LinkedIn";
                job_of "Data Engineer" "Initech" "LinkedIn" ] None "20260101_120000"
  = ([ [ "title"; "company"; "location"; "experience"; "salary"; "apply_url"; "source" ];
       [ "Data Analyst"; "Globex"; "India"; ""; "Not disclosed"; "#"; "LinkedIn" ];
       [ "Data Engineer"; "Initech"; "India"; ""; "Not disclosed"; "#"; "LinkedIn" ] ],
     inr "jobs_20260101_120000.csv").
Proof. apply save_to_csv_writes_rows. by repeat constructor. Defined.

(** X22. [main] never gets to its last lines: whatever is typed and
    whatever the network does, it ends with the [ValueError] of the export. *)
Theorem main_always_raises (title_input location_input : string) (w : World)
    (timestamp : string) :
  main title_input location_input w timestamp
  = inl (mkExn "ValueError" "dict contains fields not in fieldnames: 'description'").
Proof.
  unfold main. cbv zeta.
  match goal with
  | |- context [search_jobs ?t ?l w] =>
      destruct (search_jobs_head t l w) as (job & rest & -> & _ & Hd)
  end.
  by rewrite save_to_csv_description.
Qed.

(** ** The [/search] route *)

Section RouteMore.

Variable run_search : string → string → Result (list JobRecord).

(** X23. The route answers every request, with one of three shapes: the
    records and their count with status 200, the error of the empty title
    with status 400, or the failure indicator with status 500. *)
Theorem search_route_shapes (data : RequestJson) :
  match search_route run_search data with
  | (Success jobs count, status) => status = 200%N ∧ count = length jobs
  | (ErrorOnly error, status) => status = 400%N ∧ error = "Job title is required"
  | (Failure _, status) => status = 500%N
  end.
Proof.
  unfold search_route, search_route_try.
  destruct data as [e|fields|v]; simpl; [done| |done].
  destruct (default (JStr "") (fields !! "job_title")); simpl; try done.
  destruct (default (JStr "India") (fields !! "location")); simpl; try done.
  destruct (Text.truthy _); simpl; [|done].
  by destruct (run_search _ _).
Qed.

(** X24. A field that is there but is no string is answered with the
    failure indicator and status 500. *)
Theorem search_route_non_string (fields : gmap string Json) (v : Json) :
  (∀ s, v ≠ JStr s) →
  fields !! "job_title" = Some v ∨ fields !! "location" = Some v →
  ∃ msg, search_route run_search (JsonObject fields) = (Failure msg, 500%N).
Proof.
  intros Hv H. exact (search_route_malformed run_search (JsonObject fields) v Hv H).
Qed.

End RouteMore.

Lemma search_route_non_string_witness :
  ∃ msg, search_route (λ _ _, inr []) (JsonObject {[ "job_title" := JInt ]})
         = (Failure msg, 500%N).
Proof.
  apply (search_route_non_string _ _ JInt); [discriminate|]. left. reflexivity.
Defined.

(** X25. The pipeline is only ever run on a title that is trimmed and not
    empty and on a trimmed location: two pipelines that agree on such
    arguments give the same answers. *)
Theorem search_route_trimmed_arguments
    (run_search run_search' : string → string → Result (list JobRecord))
    (data : RequestJson) :
  (∀ job_title location,
     job_title ≠ "" → Text.strip job_title = job_title →
     Text.strip location = location →
     run_search job_title location = run_search' job_title location) →
  search_route run_search data = search_route run_search' data.
Proof.
  intros Hagree. unfold search_route, search_route_try.
  destruct data as [e|fields|v]; simpl; [done| |done].
  destruct (default (JStr "") (fields !! "job_title")) as [t| | | | | |]; simpl; try done.
  destruct (default (JStr "India") (fields !! "location")) as [l| | | | | |];
    simpl; try done.
  destruct (Text.truthy (Text.strip t)) eqn:Ht; simpl; [|done].
  rewrite Hagree; [done|by apply truthy_true|apply strip_idempotent..].
Qed.

Lemma search_route_trimmed_arguments_witness :
  search_route (λ job_title _, if Text.truthy job_title then inr [] else inl (mkExn "E" ""))
    (JsonObject {[ "job_title" := JStr " x " ]})
  = search_route (λ _ _, inr []) (JsonObject {[ "job_title" := JStr " x " ]}).
Proof.
  apply search_route_trimmed_arguments.
  intros job_title location Hne _ _. by destruct job_title.
Defined.

(** X21. The export of what [search_jobs] returns always raises: the first
    record is a TimesJobs record, which has a description, so that the file
    is left with its header row alone. *)
Theorem export_of_search_jobs_raises (job_title location : string) (w : World)
    (filename : option string) (timestamp : string) :
  save_to_csv (search_jobs job_title location w) filename timestamp
  = ([fieldnames],
     inl (mkExn "ValueError" "dict contains fields not in fieldnames: 'description'")).
Proof. apply save_to_csv_search_jobs. Qed.

(** ** The functions that [search_jobs] does not call *)

#[local] Arguments String.append : simpl never.
#[local] Arguments Nat.leb : simpl never.
#[local] Arguments Nat.ltb : simpl never.

Section Unused.

Implicit Types (job : JobRecord) (jobs : list JobRecord).

Lemma indeed_alternative_loop_spec all_links loc jobs :
  length jobs ≤ 4 →
  Forall (λ job, indeed_alternative_record loc job) jobs →
  length (indeed_alternative_loop all_links loc jobs) ≤ 5
  ∧ Forall (λ job, indeed_alternative_record loc job)
      (indeed_alternative_loop all_links loc jobs).
Proof.
  revert jobs. induction all_links as [|link rest IH]; intros jobs Hlen Hall; simpl.
  - split; [lia|done].
  - destruct (_ && _) eqn:Hcond; [|by apply IH].
    apply andb_prop in Hcond as [[Htext Hhref]%andb_prop _].
    apply Nat.ltb_lt in Htext. apply orb_prop in Hhref.
    match goal with |- context [jobs ++ [?r]] => set (record := r) end.
    assert (Forall (λ job, indeed_alternative_record loc job) (jobs ++ [record]))
      as Hall'.
    { apply Forall_app. split; [done|]. constructor; [|done].
      unfold indeed_alternative_record, record. simpl.
      split_and!; try done.
      destruct (Text.startswith _ _); [|done].
      destruct Hhref as [H|H]; [left|right];
        by apply (contains_app_r _ "https://www.indeed.com"). }
    destruct (5 <=? length (jobs ++ [record]))%nat eqn:Hfull.
    + split; [|exact Hall']. rewrite length_app. simpl. lia.
    + apply IH; [|exact Hall']. apply Nat.leb_gt in Hfull. lia.
Qed.

(** X26. [parse_indeed_alternative] returns at most five records.  Each is
    tagged ['Indeed'], has the company ['Various Companies'], the location it
    was given, a title of more than ten characters and a URL in which
    ["/viewjob"] or ["/jobs/"] occurs. *)
Theorem parse_indeed_alternative_records (soup : Card) (job_title loc : string) :
  length (parse_indeed_alternative soup job_title loc) ≤ 5
  ∧ Forall (λ job,
      source job = "Indeed"
      ∧ company job = "Various Companies"
      ∧ location job = loc
      ∧ 10 < String.length (title job)
      ∧ description job = Some ("Job opportunity: " +:+ title job)
      ∧ (Text.contains "/viewjob" (apply_url job) = true
         ∨ Text.contains "/jobs/" (apply_url job) = true))
      (parse_indeed_alternative soup job_title loc).
Proof.
  unfold parse_indeed_alternative.
  apply (indeed_alternative_loop_spec (find_all_links soup) loc []); [simpl; lia|done].
Qed.

(** X27. The Naukri jobs are six records tagged ['Naukri'], with pairwise
    distinct keys, whose URLs are naukri.com URLs without a blank; the mixing
    step of [search_jobs] would drop them all, for their source names neither
    LinkedIn nor TimesJobs. *)
Theorem get_realistic_naukri_jobs_records (job_title : string) :
  length (get_realistic_naukri_jobs job_title) = 6
  ∧ Forall (λ job,
      source job = "Naukri"
      ∧ Text.startswith (apply_url job) "https://www.naukri.com/" = true
      ∧ Text.contains " " (apply_url job) = false)
      (get_realistic_naukri_jobs job_title)
  ∧ remove_duplicates (get_realistic_naukri_jobs job_title)
    = get_realistic_naukri_jobs job_title
  ∧ mix_sources (get_realistic_naukri_jobs job_title) = [].
Proof.
  split_and!.
  - reflexivity.
  - unfold get_realistic_naukri_jobs. cbv zeta. simpl map.
    repeat (apply List.Forall_cons;
            [cbv beta; split_and!; simpl;
             first [ reflexivity
                   | apply startswith_app
                   | rewrite ?contains_char_app, ?replace_no_char; reflexivity ]|]).
    apply List.Forall_nil.
  - apply remove_duplicates_id. unfold get_realistic_naukri_jobs. cbv zeta.
    simpl map. unfold dedup_key. simpl fmap.
    repeat (apply NoDup_cons; split;
            [rewrite ?elem_of_cons, elem_of_nil; intros H;
             repeat (destruct H as [H|H]; [by inversion H|]); done|]).
    apply NoDup_nil_2.
  - reflexivity.
Qed.

(** X28. The sample jobs of a site have pairwise distinct keys, whatever the
    query: deduplication leaves every list of samples as it is. *)
Theorem samples_survive_deduplication (job_title location : string) :
  remove_duplicates (get_sample_timesjobs job_title location)
    = get_sample_timesjobs job_title location
  ∧ remove_duplicates (get_sample_linkedin_jobs job_title)
    = get_sample_linkedin_jobs job_title
  ∧ remove_duplicates (get_sample_apna_jobs job_title location)
    = get_sample_apna_jobs job_title location
  ∧ remove_duplicates (get_sample_indeed_jobs job_title location)
    = get_sample_indeed_jobs job_title location.
Proof.
  split_and!; apply remove_duplicates_id, NoDup_keys_by_company;
    apply (bool_decide_unpack _); vm_compute; reflexivity.
Qed.

End Unused.

(** X29. A successful answer of the endpoint never reports zero jobs: the
    pipeline always has at least the TimesJobs records. *)
Theorem search_endpoint_success_nonempty (w : World) (data : RequestJson)
    (jobs : list JobRecord) (count : nat) (status : N) :
  search_endpoint w data = (Success jobs count, status) →
  jobs ≠ [] ∧ 1 ≤ count.
Proof.
  unfold search_endpoint, search_route, search_route_try.
  destruct data as [e|fields|v]; simpl; [done| |done].
  destruct (default (JStr "") (fields !! "job_title")) as [t| | | | | |]; simpl; try done.
  destruct (default (JStr "India") (fields !! "location")) as [l| | | | | |];
    simpl; try done.
  destruct (Text.truthy (Text.strip t)); simpl; [|done].
  destruct (search_jobs_head (Text.strip t) (Text.strip l) w) as (job & rest & -> & _).
  intros [= <- <- _]. simpl. split; [done|lia].
Qed.

Lemma search_endpoint_success_nonempty_witness :
  let w := mkWorld (FetchResponse 503 []) (FetchResponse 503 []) in
  search_jobs "Data Analyst" "Pune" w ≠ [] ∧ 1 ≤ 4.
Proof.
  intros w.
  apply (search_endpoint_success_nonempty w
           (JsonObject {[ "job_title" := JStr "Data Analyst"; "location" := JStr "Pune" ]})
           _ _ 200%N).
  vm_compute. reflexivity.
Defined.

(** X30. A record carries the name of the site whose parser made it. *)
Theorem parse_card_source (site : Site) (card : Card) (r : JobRecord) :
  parse_card site card = Some r →
  source r = match site with
             | ApnaSite => "Apna.co"
             | TimesJobsSite => "TimesJobs"
             | IndeedSite => "Indeed"
             | LinkedInSite => "LinkedIn"
             end.
Proof.
  destruct site; simpl.
  - apply parse_apna_job_card_source.
  - apply parse_timesjobs_job_card_source.
  - by intros (_ & _ & ->)%parse_indeed_job_card_Some.
  - apply parse_linkedin_job_source.
Qed.

Lemma parse_card_source_witness :
  ∃ r, parse_card IndeedSite indeed_card = Some r ∧ source r = "Indeed".
Proof.
  eexists. split; [reflexivity|].
  exact (parse_card_source IndeedSite indeed_card _ eq_refl).
Defined.
